(** * Connection lifecycle of the Uptime Kuma provider client

    A shallow embedding of [internal/client/client.go] ([New],
    [newClientDirect], [Client.Disconnect]) and [internal/client/pool.go]
    ([Pool.GetOrCreate], [Pool.configMatches], [Pool.Release], [Pool.Close]),
    with the properties of the retry loop and of the single-slot pool;
    further on, the HTTP token client of client.go ([AuthClient]) and the
    colour pattern of the tag resource.

    Conventions of the embedding:
    - a Go [int] is a 64-bit signed integer, kept as a [Z] with the
      wrap-around of [++] written out ([wrapInt]);
    - a [time.Duration] is a [Z] number of nanoseconds;
    - [float64] arithmetic is taken exact, over [Q]; the conversion of a
      float to a [time.Duration] truncates toward zero and, outside the
      int64 range, yields a value that depends on the platform;
    - the calls that leave the package ([kuma.New], [Disconnect] of the
      library, [rand.Float64], [time.Sleep], [os.Getenv], [fmt.Printf]) act
      on an explicit [World], which records them;
    - a method of [Pool] runs under the mutex of the pool for its whole
      body, so a call is one atomic step on the state of the pool. *)

From Stdlib Require Import ZArith QArith Qround String Ascii List Bool Lia Lqa.
From Stdlib Require Import DecimalString.
Import ListNotations.

Local Close Scope Q_scope.
Local Open Scope Z_scope.

Set Implicit Arguments.

(** ** Go values *)

Module Go.

(** [int] on a 64-bit platform. *)
Definition minInt : Z := - 2 ^ 63.
Definition maxInt : Z := 2 ^ 63 - 1.

(** Two's complement wrap-around of an integer result. *)
Definition wrapInt (z : Z) : Z := (z + 2 ^ 63) mod 2 ^ 64 - 2 ^ 63.

(** [time.Duration]: nanoseconds. *)
Definition Duration : Type := Z.
Definition Second : Duration := 1000000000.

(** An [error] value: [errors.errorString] (also what [fmt.Errorf] builds
    without [%w]) or [fmt.wrapError] (what it builds with [%w]).  The
    errors of the transport library are values of this type as well. *)
Inductive error : Type :=
| errorString (s : string)
| wrapError (msg : string) (err : error).

Definition Error (e : error) : string :=
  match e with
  | errorString s => s
  | wrapError msg _ => msg
  end.

Definition Unwrap (e : error) : option error :=
  match e with
  | errorString _ => None
  | wrapError _ err => Some err
  end.

(** A format string with its operands in place: literal text and the
    verbs [%d], [%s] and [%w] that the package uses in [fmt.Errorf]. *)
Inductive piece : Type :=
| Lit (s : string)
| VerbD (z : Z)
| VerbS (s : string)
| VerbW (e : option error).

Definition decimal (z : Z) : string := NilZero.string_of_int (Z.to_int z).

Definition render (p : piece) : string :=
  match p with
  | Lit s => s
  | VerbD z => decimal z
  | VerbS s => s
  | VerbW (Some e) => Error e
  | VerbW None => "%!w(<nil>)"
  end.

Fixpoint Sprint (ps : list piece) : string :=
  match ps with
  | [] => EmptyString
  | p :: ps' => (render p ++ Sprint ps')%string
  end.

(** The operand of the first [%w] that is an error, if there is one. *)
Fixpoint wrapped (ps : list piece) : option error :=
  match ps with
  | [] => None
  | VerbW (Some e) :: _ => Some e
  | _ :: ps' => wrapped ps'
  end.

Definition Errorf (ps : list piece) : error :=
  match wrapped ps with
  | Some e => wrapError (Sprint ps) e
  | None => errorString (Sprint ps)
  end.

(** Truncation toward zero of an exact value. *)
Definition truncate (x : Q) : Z := Z.quot (Qnum x) (Zpos (Qden x)).

End Go.
Import Go.

(** ** The data of the package *)

(** [*kuma.Client], the session handle of the transport library. *)
Definition KumaClient : Type := nat.

(** [Config]. *)
Record Config : Type := mkConfig {
  BaseURL : string;
  Username : string;
  Password : string;
  EnableConnectionPool : bool
}.

(** [*Client].  A [Client] is allocated once and its field is not assigned
    afterwards, so a pointer is kept as the allocation it points to: its
    address and the [Kuma] field ([None] is [nil]). *)
Record Client : Type := mkClient {
  addr : nat;
  Kuma : option KumaClient
}.

(** [Pool], without its mutex.  [None] is a [nil] pointer. *)
Record Pool : Type := mkPool {
  client : option Client;
  config : option Config;
  refs : Z
}.

(** [&Pool{}]. *)
Definition emptyPool : Pool := mkPool None None 0.

(** One line of [fmt.Printf] in the retry loop, by its operands. *)
Record RetryLine : Type := mkRetryLine {
  attempt : Z;
  total : Z;
  cause : string;
  delay : Duration
}.

(** ** The world outside the package *)

(** One call that leaves the package. *)
Inductive Event : Type :=
| Dialed (url user pass : string)   (* kuma.New(ctx, url, user, pass) *)
| Drew                              (* rand.Float64() *)
| Printed (l : RetryLine)           (* fmt.Printf of the retry line *)
| Slept (d : Duration)              (* time.Sleep(d) *)
| Disconnected (k : KumaClient).    (* k.Disconnect() of the library *)

(** What the package has done to its surroundings, and the process state
    it reads. *)
Record World : Type := mkWorld {
  environ : string -> string;   (* os.Getenv *)
  events : list Event;          (* the calls made, oldest first *)
  allocated : nat;              (* Client structs allocated *)
  globalPool : option Pool      (* the variable globalPool *)
}.

(** The operands of the calls of [kuma.New] in a run of events. *)
Fixpoint dialed (l : list Event) : list (string * string * string) :=
  match l with
  | [] => []
  | Dialed url user pass :: l' => (url, user, pass) :: dialed l'
  | _ :: l' => dialed l'
  end.

(** The number of draws of [rand.Float64]. *)
Fixpoint drawn (l : list Event) : nat :=
  match l with
  | [] => 0%nat
  | Drew :: l' => S (drawn l')
  | _ :: l' => drawn l'
  end.

(** The operands of the calls of [time.Sleep]. *)
Fixpoint slept (l : list Event) : list Duration :=
  match l with
  | [] => []
  | Slept d :: l' => d :: slept l'
  | _ :: l' => slept l'
  end.

(** The handles given to the library's [Disconnect]. *)
Fixpoint closed (l : list Event) : list KumaClient :=
  match l with
  | [] => []
  | Disconnected k :: l' => k :: closed l'
  | _ :: l' => closed l'
  end.

(** How the surroundings answer: the n-th call of [kuma.New] (a session
    handle that is not [nil], or an error), the n-th call of the library's
    [Disconnect], the n-th draw of [rand.Float64], and the result of
    converting a float outside the int64 range. *)
Record Transport : Type := mkTransport {
  kumaNew : nat -> string -> string -> string -> KumaClient + error;
  kumaDisconnect : nat -> KumaClient -> option error;
  randFloat64 : nat -> Q;
  convOutOfRange : Q -> Z
}.

(** ** Computations: state, and the run-time panic of a nil dereference *)

Inductive Outcome (A : Type) : Type :=
| Done (a : A) (w : World)
| Panic (msg : string) (w : World).
Arguments Panic {A} msg w.

Definition M (A : Type) : Type := World -> Outcome A.

Definition ret {A : Type} (a : A) : M A := fun w => Done a w.

Definition bind {A B : Type} (m : M A) (f : A -> M B) : M B :=
  fun w =>
    match m w with
    | Done a w' => f a w'
    | Panic msg w' => Panic msg w'
    end.

Definition panic {A : Type} (msg : string) : M A := fun w => Panic msg w.

Notation "x <- m ;; k" := (bind m (fun x => k))
  (at level 61, m at next level, right associativity).
Notation "m ;;; k" := (bind m (fun _ => k))
  (at level 61, right associativity).

(** ** The calls that leave the package *)

Definition extend (l : list Event) (w : World) : World :=
  mkWorld (environ w) (events w ++ l) (allocated w) (globalPool w).

Definition record (e : Event) (w : World) : World := extend [e] w.

Definition setAllocated (n : nat) (w : World) : World :=
  mkWorld (environ w) (events w) n (globalPool w).

Definition setGlobalPool (p : option Pool) (w : World) : World :=
  mkWorld (environ w) (events w) (allocated w) p.

Section Client.

Variable T : Transport.

(** [kuma.New(ctx, url, user, pass)]. *)
Definition kuma_New (url user pass : string) : M (KumaClient + error) :=
  fun w =>
    Done (kumaNew T (length (dialed (events w))) url user pass)
         (record (Dialed url user pass) w).

(** [k.Disconnect()] of the library. *)
Definition kuma_Disconnect (k : KumaClient) : M (option error) :=
  fun w =>
    Done (kumaDisconnect T (length (closed (events w))) k)
         (record (Disconnected k) w).

(** [rand.Float64()]. *)
Definition rand_Float64 : M Q :=
  fun w => Done (randFloat64 T (drawn (events w))) (record Drew w).

(** [time.Sleep(d)]. *)
Definition time_Sleep (d : Duration) : M unit :=
  fun w => Done tt (record (Slept d) w).

(** [fmt.Printf] of the retry line. *)
Definition fmt_Printf (l : RetryLine) : M unit :=
  fun w => Done tt (record (Printed l) w).

(** [os.Getenv(name)]. *)
Definition os_Getenv (name : string) : M string :=
  fun w => Done (environ w name) w.

(** [&Client{Kuma: k}]: a fresh allocation. *)
Definition newClient (k : option KumaClient) : M Client :=
  fun w => Done (mkClient (allocated w) k) (setAllocated (S (allocated w)) w).

(** [time.Duration(x)] of a float. *)
Definition toDuration (x : Q) : Duration :=
  let t := truncate x in
  if (minInt <=? t) && (t <=? maxInt) then t else convOutOfRange T x.

(** ** client.go *)

(** How the [for] statement of [newClientDirect] is left: by the [return]
    in its body, or by [break] or its condition, with the value of [err]. *)
Inductive LoopExit : Type :=
| Returned (c : Client)
| Fell (err : option error).

Section Retry.

(** The locals [maxRetries := 5] and [baseDelay := 5 * time.Second]. *)
Variable maxRetries : nat.
Variable baseDelay : Duration.
Variable config : Config.

(** [float64(baseDelay) * math.Pow(2, float64(i))]. *)
Definition backoff (i : nat) : Q :=
  (inject_Z baseDelay * inject_Z (2 ^ Z.of_nat i))%Q.

(** [rand.Float64()*0.4 + 0.8] for a draw [u]. *)
Definition jitter (u : Q) : Q := (u * (4 # 10) + (8 # 10))%Q.

(** [time.Duration(backoff * r)], capped at 30 seconds. *)
Definition sleepFor (i : nat) (u : Q) : Duration :=
  let sleepDuration := toDuration (backoff i * jitter u)%Q in
  if 30 * Second <? sleepDuration then 30 * Second else sleepDuration.

(** The [for] statement, over the values [i = 0 .. maxRetries] that are
    left to run; the body does not assign [i]. *)
Fixpoint retryLoop (todo : list nat) (err : option error) : M LoopExit :=
  match todo with
  | [] => ret (Fell err)
  | i :: todo' =>
      r <- kuma_New (BaseURL config) (Username config) (Password config) ;;
      match r with
      | inl k =>
          c <- newClient (Some k) ;;
          ret (Returned c)
      | inr e =>
          if (i =? maxRetries)%nat then ret (Fell (Some e))
          else
            u <- rand_Float64 ;;
            let sleepDuration := sleepFor i u in
            fmt_Printf (mkRetryLine (Z.of_nat i + 1) (Z.of_nat maxRetries + 1)
                                    (Error e) sleepDuration) ;;;
            time_Sleep sleepDuration ;;;
            retryLoop todo' (Some e)
      end
  end.

Definition newClientDirectWith : M (option Client * option error) :=
  x <- retryLoop (seq 0 (S maxRetries)) None ;;
  match x with
  | Returned c => ret (Some c, None)
  | Fell err =>
      ret (None,
           Some (Errorf [Lit "failed to connect to Uptime Kuma after ";
                         VerbD (Z.of_nat maxRetries + 1);
                         Lit " attempts: ";
                         VerbW err]))
  end.

End Retry.

(** [newClientDirect]. *)
Definition newClientDirect (config : Config) : M (option Client * option error) :=
  newClientDirectWith 5 (5 * Second) config.

(** [(c *Client) Disconnect()], for a receiver that is not [nil]. *)
Definition Disconnect (c : Client) : M (option error) :=
  match Kuma c with
  | Some k => kuma_Disconnect k
  | None => ret None
  end.

(** ** pool.go *)

(** [(p *Pool) configMatches(config)]. *)
Definition configMatches (p : Pool) (cfg : Config) : bool :=
  match config p with
  | None => false
  | Some pc =>
      (BaseURL pc =? BaseURL cfg)%string
      && (Username pc =? Username cfg)%string
      && (Password pc =? Password cfg)%string
  end.

(** [(p *Pool) GetOrCreate(config)]: the results and the pool afterwards.
    Formatting the mismatch reads [p.config.BaseURL], which dereferences
    [nil] when [p.config] is [nil]. *)
Definition GetOrCreate (p : Pool) (cfg : Config)
  : M ((option Client * option error) * Pool) :=
  match client p with
  | Some c =>
      if negb (configMatches p cfg) then
        match config p with
        | None => panic "invalid memory address or nil pointer dereference"
        | Some pc =>
            ret ((None,
                  Some (Errorf [Lit "connection pool config mismatch: existing connection uses different credentials (URL: ";
                                VerbS (BaseURL pc);
                                Lit " vs ";
                                VerbS (BaseURL cfg);
                                Lit ")"])),
                 p)
        end
      else
        ret ((Some c, None),
             mkPool (client p) (config p) (wrapInt (refs p + 1)))
  | None =>
      r <- newClientDirect cfg ;;
      match r with
      | (_, Some err) =>
          ret ((None,
                Some (Errorf [Lit "failed to create pooled connection: ";
                              VerbW (Some err)])),
               p)
      | (c, None) =>
          ret ((c, None), mkPool c (Some cfg) 1)
      end
  end.

(** [(p *Pool) Release()].  Under [p.refs > 0] the decrement does not
    wrap. *)
Definition Release (p : Pool) : M (unit * Pool) :=
  if 0 <? refs p
  then ret (tt, mkPool (client p) (config p) (refs p - 1))
  else ret (tt, p).

(** [(p *Pool) Close()]. *)
Definition Close (p : Pool) : M (option error * Pool) :=
  match client p with
  | Some c =>
      err <- Disconnect c ;;
      ret (err, mkPool None None 0)
  | None => ret (None, p)
  end.

(** [GetGlobalPool()]: the pool is made on the first call. *)
Definition GetGlobalPool : M Pool :=
  fun w =>
    match globalPool w with
    | Some p => Done p w
    | None => Done emptyPool (setGlobalPool (Some emptyPool) w)
    end.

(** A method called on the pointer that [GetGlobalPool] returned. *)
Definition onGlobalPool {A : Type} (method : Pool -> M (A * Pool)) : M A :=
  p <- GetGlobalPool ;;
  r <- method p ;;
  fun w => Done (fst r) (setGlobalPool (Some (snd r)) w).

(** [CloseGlobalPool()]. *)
Definition CloseGlobalPool : M (option error) :=
  fun w =>
    match globalPool w with
    | Some p =>
        match Close p w with
        | Done r w' => Done (fst r) (setGlobalPool (Some (snd r)) w')
        | Panic msg w' => Panic msg w'
        end
    | None => Done None w
    end.

(** The local [poolEnabled] of [New]. *)
Definition poolEnabled (cfg : Config) : M bool :=
  if negb (EnableConnectionPool cfg)
  then
    v <- os_Getenv "UPTIMEKUMA_ENABLE_CONNECTION_POOL" ;;
    ret (v =? "true")%string
  else ret true.

(** [New(config)], for a [config] that is not [nil]. *)
Definition New (cfg : Config) : M (option Client * option error) :=
  if (BaseURL cfg =? "")%string then
    ret (None, Some (Errorf [Lit "base URL is required"]))
  else
    enabled <- poolEnabled cfg ;;
    if enabled
    then onGlobalPool (fun pool => GetOrCreate pool cfg)
    else newClientDirect cfg.

End Client.

(** ** The errors of the package, under the names of the specification

    The package has no error types of its own: every error is built by
    [fmt.Errorf], and the three kinds are told apart by their text. *)

(** "base URL is required". *)
Definition ConfigError (e : error) : Prop :=
  e = errorString "base URL is required".

(** The error after the last attempt: it wraps [last] and its text carries
    the number of attempts. *)
Definition ConnectionExhaustedError (attempts : Z) (last e : error) : Prop :=
  Unwrap e = Some last /\
  Error e = ("failed to connect to Uptime Kuma after " ++ decimal attempts
             ++ " attempts: " ++ Error last)%string.

(** The error of an acquire with other credentials: its text carries the
    stored and the requested URL. *)
Definition ConfigMismatchError (stored requested : string) (e : error) : Prop :=
  Unwrap e = None /\
  Error e = ("connection pool config mismatch: existing connection uses different credentials (URL: "
             ++ stored ++ " vs " ++ requested ++ ")")%string.

(** The operands of [kuma.New] for a config. *)
Definition credentials (cfg : Config) : string * string * string :=
  (BaseURL cfg, Username cfg, Password cfg).

(** The states of a pool that its methods can produce from [&Pool{}]. *)
Inductive reachable (T : Transport) : Pool -> Prop :=
| reach_new : reachable T emptyPool
| reach_GetOrCreate p cfg w r p' w' :
    reachable T p ->
    GetOrCreate T p cfg w = Done (r, p') w' ->
    reachable T p'
| reach_Release p w p' w' :
    reachable T p ->
    Release p w = Done (tt, p') w' ->
    reachable T p'
| reach_Close p w r p' w' :
    reachable T p ->
    Close T p w = Done (r, p') w' ->
    reachable T p'.

(** ** The runs of the retry loop *)

Section Runs.

Variable T : Transport.
Variable maxRetries : nat.
Variable baseDelay : Duration.
Variable cfg : Config.

(** The error of the j-th attempt of a run, and the number of draws of
    [rand.Float64] made before the run. *)
Variable errs : nat -> error.
Variable draws : nat.

(** The sleep after the failure of attempt [j] (from 0). *)
Definition sleepOf (j : nat) : Duration :=
  sleepFor T baseDelay j (randFloat64 T (draws + j)).

(** What a failed attempt that is not the last one does: the call, the
    draw, the line and the sleep. *)
Definition failedAttempt (j : nat) : list Event :=
  [ Dialed (BaseURL cfg) (Username cfg) (Password cfg);
    Drew;
    Printed (mkRetryLine (Z.of_nat j + 1) (Z.of_nat maxRetries + 1)
                         (Error (errs j)) (sleepOf j));
    Slept (sleepOf j) ].

Definition failedAttempts (k : nat) : list Event :=
  flat_map failedAttempt (seq 0 k).

(** The value of [err] after [k] failed attempts. *)
Definition lastErr (k : nat) (err : option error) : option error :=
  match k with
  | O => err
  | S k' => Some (errs k')
  end.

End Runs.

(** The shape of the states of a pool: empty as [&Pool{}], or holding a
    connected client together with the config it was made from. *)
Definition wellFormed (p : Pool) : Prop :=
  match client p with
  | None => p = emptyPool
  | Some c => (exists pc, config p = Some pc) /\ (exists k, Kuma c = Some k)
  end.

(** ** Test doubles *)

Module Double.

(** A server that refuses the first [k] logins and then hands out the
    number of the call as the session; every draw is 0.5; a float out of
    range converts to the least int64. *)
Definition flaky (k : nat) : Transport :=
  mkTransport
    (fun n _ _ _ =>
       if (n <? k)%nat then inr (errorString "login: Too frequently")
       else inl n)
    (fun _ _ => None)
    (fun _ => (1 # 2)%Q)
    (fun _ => minInt).

(** The error of every failed login of [flaky]. *)
Definition tooFrequently (j : nat) : error := errorString "login: Too frequently".

(** A process that has made no call, with the pooling variable set to [v]. *)
Definition boot (v : string) : World :=
  mkWorld
    (fun name => if (name =? "UPTIMEKUMA_ENABLE_CONNECTION_POOL")%string
                 then v else EmptyString)
    [] 0 None.

Definition cfgX : Config := mkConfig "http://x" "a" "b" false.
Definition cfgY : Config := mkConfig "http://y" "a" "b" false.
Definition cfgNoURL : Config := mkConfig "" "a" "b" true.

(** A pool that holds session 7 for [cfgX], with three users. *)
Definition held : Pool := mkPool (Some (mkClient 0 (Some 7%nat))) (Some cfgX) 3.

(** Two acquires, two releases, a forced close and a new acquire, on a
    server that accepts every login. *)
Definition scenario : M (list (option Client) * list Z * Pool) :=
  let T := flaky 0 in
  a1 <- GetOrCreate T emptyPool cfgX ;;
  a2 <- GetOrCreate T (snd a1) cfgX ;;
  r1 <- Release (snd a2) ;;
  r2 <- Release (snd r1) ;;
  c <- Close T (snd r2) ;;
  a3 <- GetOrCreate T (snd c) cfgX ;;
  ret ([fst (fst a1); fst (fst a2); fst (fst a3)],
       [refs (snd a1); refs (snd a2); refs (snd r1); refs (snd r2);
        refs (snd c); refs (snd a3)],
       snd a3).

(** [cfgX] and [cfgY] with [EnableConnectionPool] set. *)
Definition cfgXPooled : Config := mkConfig "http://x" "a" "b" true.
Definition cfgYPooled : Config := mkConfig "http://y" "a" "b" true.

(** The pool after one acquire on a server that accepts every login. *)
Definition heldOnce : Pool := mkPool (Some (mkClient 0 (Some 0%nat))) (Some cfgX) 1.

(** The world after a pooled [New] in a process that has made no call. *)
Definition afterNew : World :=
  match New (flaky 0) cfgXPooled (boot "") with
  | Done _ w => w
  | Panic _ w => w
  end.

End Double.

(** ** Callers of the package *)

(** [os.Setenv(name, value)], which [TestMain] of the provider tests
    calls with [UPTIMEKUMA_ENABLE_CONNECTION_POOL] and "true" before the
    tests run. *)
Definition os_Setenv (name value : string) : M unit :=
  fun w =>
    Done tt (mkWorld (fun n => if (n =? name)%string then value else environ w n)
                     (events w) (allocated w) (globalPool w)).

(** [n] calls of one method on the same pool, one after the other, with
    the results of the calls in order. *)
Fixpoint calls {A : Type} (n : nat) (method : Pool -> M (A * Pool)) (p : Pool)
  : M (list A * Pool) :=
  match n with
  | O => ret ([], p)
  | S n' =>
      r <- method p ;;
      rs <- calls n' method (snd r) ;;
      ret (fst r :: fst rs, snd rs)
  end.

(** [n] runs of one computation, one after the other. *)
Fixpoint times {A : Type} (n : nat) (m : M A) : M (list A) :=
  match n with
  | O => ret []
  | S n' =>
      r <- m ;;
      rs <- times n' m ;;
      ret (r :: rs)
  end.

(** What a run of the acceptance tests does with the package: [TestMain]
    sets the variable, the tests call [New] ([n] times here, with one
    config), and [TestMain] closes the global pool. *)
Definition testRun (T : Transport) (n : nat) (cfg : Config)
  : M (list (option Client * option error) * option error) :=
  os_Setenv "UPTIMEKUMA_ENABLE_CONNECTION_POOL" "true" ;;;
  rs <- times n (New T cfg) ;;
  err <- CloseGlobalPool T ;;
  ret (rs, err).

(** The error of an answer of [kuma.New] that is an error. *)
Definition errorOf (a : KumaClient + error) : error :=
  match a with
  | inr e => e
  | inl _ => errorString ""
  end.

(** * The HTTP token client of client.go

    [AuthClient] with [NewAuthClient], [GetToken], [refreshToken],
    [doAuthenticate], [AddAuthHeader], [AuthenticatedClient] and
    [authTransport.RoundTrip].

    A [time.Time] is an instant on one time line, in nanoseconds; the zero
    [Time] is 0.  The calls that leave the package (the clock, the waits
    of [select], the HTTP client, the form encoder and the JSON decoder)
    act on a world of their own.  A method of [AuthClient] gets the value
    the receiver points to and returns the value it leaves there; one
    caller runs at a time. *)

Module Auth.

Definition Time : Type := Z.
Definition Minute : Duration := 60 * Second.

(** [t.Add(d)], [t.After(u)], [t.Before(u)] and [t.Sub(u)], which stays at
    the largest or the least [Duration] when the difference is outside. *)
Definition Add (t : Time) (d : Duration) : Time := t + d.
Definition After (t u : Time) : bool := u <? t.
Definition Before (t u : Time) : bool := t <? u.
Definition Sub (t u : Time) : Duration := Z.max minInt (Z.min maxInt (t - u)).

(** [strings.Contains(s, sub)]. *)
Fixpoint Contains (s sub : string) : bool :=
  String.prefix sub s ||
  match s with
  | EmptyString => false
  | String _ s' => Contains s' sub
  end.

(** [http.Header], for keys in canonical form: [Set] and [Get]. *)
Definition Header : Type := list (string * string).

Definition HeaderSet (key value : string) (h : Header) : Header :=
  (key, value) :: filter (fun kv => negb (fst kv =? key)%string) h.

Fixpoint HeaderGet (key : string) (h : Header) : string :=
  match h with
  | [] => EmptyString
  | (k, v) :: h' => if (k =? key)%string then v else HeaderGet key h'
  end.

(** [url.Values] holding one value per key, and [Set]. *)
Definition Values : Type := list (string * string).

Definition ValuesSet (key value : string) (v : Values) : Values :=
  (key, value) :: filter (fun kv => negb (fst kv =? key)%string) v.

Record Request : Type := mkRequest {
  Method : string;
  URL : string;
  Body : string;
  Headers : Header
}.

Record Response : Type := mkResponse {
  StatusCode : Z;
  ResponseBody : string
}.

(** [TokenResponse]. *)
Record TokenResponse : Type := mkTokenResponse {
  AccessToken : string;
  TokenType : string
}.

(** [http.RoundTripper]: [nil], a round tripper of the surroundings
    (known by a number), or an [authTransport] over its [base]. *)
Inductive RoundTripper : Type :=
| nilTripper
| external (h : nat)
| authTransport (base : RoundTripper).

(** [http.Client]: its [Transport] and its [Timeout]. *)
Record HTTPClient : Type := mkHTTPClient {
  Transport : RoundTripper;
  Timeout : Duration
}.

(** [AuthClient], without its mutex. *)
Record AuthClient : Type := mkAuthClient {
  baseURL : string;
  username : string;
  password : string;
  httpClient : option HTTPClient;
  token : string;
  tokenExpiry : Time;
  lastAuthAttempt : Time;
  minAuthInterval : Duration;
  maxRetries : Z;
  retryBaseDelay : Duration
}.

Definition setToken (tok : string) (expiry : Time) (a : AuthClient) : AuthClient :=
  mkAuthClient (baseURL a) (username a) (password a) (httpClient a)
               tok expiry (lastAuthAttempt a)
               (minAuthInterval a) (maxRetries a) (retryBaseDelay a).

Definition setLastAuthAttempt (t : Time) (a : AuthClient) : AuthClient :=
  mkAuthClient (baseURL a) (username a) (password a) (httpClient a)
               (token a) (tokenExpiry a) t
               (minAuthInterval a) (maxRetries a) (retryBaseDelay a).

(** One call that leaves the package. *)
Inductive Event : Type :=
| Clock                                   (* time.Now() or time.Since *)
| Waited (d : Duration)                   (* select: the timer of d fired *)
| Cancelled (d : Duration)                (* select: ctx.Done() came first *)
| Sent (c : HTTPClient) (r : Request)     (* c.Do(r) *)
| Tripped (base : RoundTripper) (r : Request). (* base.RoundTrip(r) *)

Definition World : Type := list Event.

Fixpoint clockReads (l : list Event) : nat :=
  match l with
  | [] => 0%nat
  | Clock :: l' => S (clockReads l')
  | _ :: l' => clockReads l'
  end.

Fixpoint selects (l : list Event) : nat :=
  match l with
  | [] => 0%nat
  | Waited _ :: l' => S (selects l')
  | Cancelled _ :: l' => S (selects l')
  | _ :: l' => selects l'
  end.

Fixpoint requests (l : list Event) : list Request :=
  match l with
  | [] => []
  | Sent _ r :: l' => r :: requests l'
  | _ :: l' => requests l'
  end.

Fixpoint waits (l : list Event) : list Duration :=
  match l with
  | [] => []
  | Waited d :: l' => d :: waits l'
  | _ :: l' => waits l'
  end.

Fixpoint trips (l : list Event) : list Request :=
  match l with
  | [] => []
  | Tripped _ r :: l' => r :: trips l'
  | _ :: l' => trips l'
  end.

(** How the surroundings answer: the n-th reading of the clock; whether
    the context is done before the timer of the n-th [select] fires, and
    then [ctx.Err()]; whether [http.NewRequestWithContext] refuses a
    method and a URL; the n-th [Do] and the n-th [RoundTrip]; the encoding
    of a form; the decoding of a token response. *)
Record Net : Type := mkNet {
  now : nat -> Time;
  ctxDone : nat -> Duration -> option error;
  requestError : string -> string -> option error;
  clientDo : nat -> HTTPClient -> Request -> Response + error;
  roundTrip : nat -> RoundTripper -> Request -> Response + error;
  Encode : Values -> string;
  Decode : string -> TokenResponse + error
}.

(** Computations: state, and the panic of a [nil] dereference. *)
Inductive Result (A : Type) : Type :=
| Ok (a : A) (w : World)
| Crash (msg : string) (w : World).
Arguments Crash {A} msg w.

Definition Run (A : Type) : Type := World -> Result A.

Definition unit_ {A : Type} (a : A) : Run A := fun w => Ok a w.

Definition seq_ {A B : Type} (m : Run A) (f : A -> Run B) : Run B :=
  fun w =>
    match m w with
    | Ok a w' => f a w'
    | Crash msg w' => Crash msg w'
    end.

Declare Scope auth_scope.
Delimit Scope auth_scope with auth.
Notation "x <- m ;; k" := (seq_ m (fun x => k))
  (at level 61, m at next level, right associativity) : auth_scope.
Notation "m ;;; k" := (seq_ m (fun _ => k))
  (at level 61, right associativity) : auth_scope.
Local Open Scope auth_scope.

Section Methods.

Variable N : Net.

(** [time.Now()]. *)
Definition time_Now : Run Time :=
  fun w => Ok (now N (clockReads w)) (w ++ [Clock]).

(** [time.Since(t)]. *)
Definition time_Since (t : Time) : Run Duration :=
  t' <- time_Now ;; unit_ (Sub t' t).

(** [select] on [time.After(d)] and [ctx.Done()]: [None] when the timer
    fired, [ctx.Err()] otherwise. *)
Definition wait (d : Duration) : Run (option error) :=
  fun w =>
    match ctxDone N (selects w) d with
    | None => Ok None (w ++ [Waited d])
    | Some e => Ok (Some e) (w ++ [Cancelled d])
    end.

(** [c.Do(req)]. *)
Definition client_Do (c : HTTPClient) (req : Request) : Run (Response + error) :=
  fun w => Ok (clientDo N (length (requests w)) c req) (w ++ [Sent c req]).

(** [base.RoundTrip(req)]. *)
Definition base_RoundTrip (base : RoundTripper) (req : Request)
  : Run (Response + error) :=
  fun w => Ok (roundTrip N (length (trips w)) base req) (w ++ [Tripped base req]).

(** [NewAuthClient(baseURL, username, password, httpClient)]. *)
Definition NewAuthClient (url user pass : string) (c : option HTTPClient)
  : AuthClient :=
  let c' := match c with
            | None => mkHTTPClient nilTripper (30 * Second)
            | Some c0 => c0
            end in
  mkAuthClient url user pass (Some c') EmptyString 0 0
               (2 * Second) 3 (1 * Second).

(** The URL and the request of [doAuthenticate]. *)
Definition authURL (a : AuthClient) : string :=
  Sprint [VerbS (baseURL a); Lit "/login/access-token"].

Definition authRequest (a : AuthClient) : Request :=
  let data := ValuesSet "password" (password a)
                (ValuesSet "username" (username a) []) in
  mkRequest "POST" (authURL a) (Encode N data)
    (HeaderSet "Accept" "application/json"
       (HeaderSet "Content-Type" "application/x-www-form-urlencoded" [])).

(** [(a *AuthClient) doAuthenticate(ctx)]. *)
Definition doAuthenticate (a : AuthClient) : Run ((string * option error) * AuthClient) :=
  match requestError N "POST" (authURL a) with
  | Some err =>
      unit_ ((EmptyString,
              Some (Errorf [Lit "failed to create auth request: "; VerbW (Some err)])),
             a)
  | None =>
      let req := authRequest a in
      match httpClient a with
      | None => fun w => Crash "invalid memory address or nil pointer dereference" w
      | Some c =>
          r <- client_Do c req ;;
          match r with
          | inr err =>
              unit_ ((EmptyString,
                      Some (Errorf [Lit "failed to execute auth request: ";
                                    VerbW (Some err)])),
                     a)
          | inl resp =>
              if negb (StatusCode resp =? 200) then
                unit_ ((EmptyString,
                        Some (Errorf [Lit "authentication failed with status code ";
                                      VerbD (StatusCode resp);
                                      Lit ": ";
                                      VerbS (ResponseBody resp)])),
                       a)
              else
                match Decode N (ResponseBody resp) with
                | inr err =>
                    unit_ ((EmptyString,
                            Some (Errorf [Lit "failed to decode token response: ";
                                          VerbW (Some err)])),
                           a)
                | inl tokenResp =>
                    if (AccessToken tokenResp =? "")%string then
                      unit_ ((EmptyString,
                              Some (Errorf [Lit "received empty access token"])),
                             a)
                    else
                      t <- time_Now ;;
                      let a' := setToken (AccessToken tokenResp)
                                         (Add t (55 * Minute)) a in
                      unit_ ((token a', None), a')
                end
          end
      end
  end.

(** How the [for] statement of [refreshToken] is left: by a [return] in
    its body, or by [break] or its condition, with [lastErr]. *)
Inductive LoopEnd : Type :=
| Left (r : string * option error)
| Through (lastErr : option error).

(** [a.retryBaseDelay * time.Duration(1<<uint(attempt-1))]. *)
Definition backoffOf (a : AuthClient) (attempt : nat) : Duration :=
  wrapInt (retryBaseDelay a * wrapInt (2 ^ (Z.of_nat attempt - 1))).

(** The [for] statement, over the values of [attempt] that are left to
    run. *)
Fixpoint attemptLoop (todo : list nat) (lastErr : option error) (a : AuthClient)
  : Run (LoopEnd * AuthClient) :=
  match todo with
  | [] => unit_ (Through lastErr, a)
  | attempt :: todo' =>
      cancelled <-
        (if (0 <? attempt)%nat then wait (backoffOf a attempt) else unit_ None) ;;
      match cancelled with
      | Some e => unit_ (Left (EmptyString, Some e), a)
      | None =>
          t <- time_Now ;;
          let a1 := setLastAuthAttempt t a in
          r <- doAuthenticate a1 ;;
          let a2 := snd r in
          match snd (fst r) with
          | None => unit_ (Left (fst (fst r), None), a2)
          | Some err =>
              if Contains (Error err) "400"
              then attemptLoop todo' (Some err) a2
              else unit_ (Through (Some err), a2)
          end
      end
  end.

(** [(a *AuthClient) refreshToken(ctx)], for [maxRetries] below the
    largest [int]. *)
Definition refreshToken (a : AuthClient) : Run ((string * option error) * AuthClient) :=
  fresh <-
    (if negb (token a =? "")%string
     then t <- time_Now ;; unit_ (Before (Add t (5 * Minute)) (tokenExpiry a))
     else unit_ false) ;;
  if fresh then unit_ ((token a, None), a)
  else
    timeSinceLastAttempt <- time_Since (lastAuthAttempt a) ;;
    cancelled <-
      (if timeSinceLastAttempt <? minAuthInterval a
       then wait (wrapInt (minAuthInterval a - timeSinceLastAttempt))
       else unit_ None) ;;
    match cancelled with
    | Some e => unit_ ((EmptyString, Some e), a)
    | None =>
        x <- attemptLoop (seq 0 (Z.to_nat (maxRetries a + 1))) None a ;;
        match fst x with
        | Left r => unit_ (r, snd x)
        | Through lastErr =>
            unit_ ((EmptyString,
                    Some (Errorf [Lit "authentication failed after ";
                                  VerbD (wrapInt (maxRetries a + 1));
                                  Lit " attempts: ";
                                  VerbW lastErr])),
                   snd x)
        end
    end.

(** [(a *AuthClient) GetToken(ctx)]. *)
Definition GetToken (a : AuthClient) : Run ((string * option error) * AuthClient) :=
  let tok := token a in
  let expiry := tokenExpiry a in
  stale <-
    (if (tok =? "")%string then unit_ true
     else t <- time_Now ;; unit_ (After (Add t (5 * Minute)) expiry)) ;;
  if stale then refreshToken a
  else unit_ ((tok, None), a).

(** [(a *AuthClient) AddAuthHeader(ctx, req)]: the error and the request
    as it is left. *)
Definition AddAuthHeader (a : AuthClient) (req : Request)
  : Run ((option error * Request) * AuthClient) :=
  r <- GetToken a ;;
  match snd (fst r) with
  | Some err => unit_ ((Some err, req), snd r)
  | None =>
      unit_ ((None,
              mkRequest (Method req) (URL req) (Body req)
                (HeaderSet "Authorization"
                   (Sprint [Lit "Bearer "; VerbS (fst (fst r))]) (Headers req))),
             snd r)
  end.

(** [(a *AuthClient) AuthenticatedClient()]; [None] is the panic of the
    dereference of an [httpClient] that is [nil]. *)
Definition AuthenticatedClient (a : AuthClient) : option HTTPClient :=
  match httpClient a with
  | None => None
  | Some c => Some (mkHTTPClient (authTransport (Transport c)) (Timeout c))
  end.

(** [(t *authTransport) RoundTrip(req)], with [t.base] ([nilTripper]
    stands for [http.DefaultTransport] there) and the [AuthClient] that
    [t.authClient] points to. *)
Definition RoundTrip (base : RoundTripper) (a : AuthClient) (req : Request)
  : Run ((option Response * option error) * AuthClient) :=
  let req2 := req in
  r <- AddAuthHeader a req2 ;;
  match fst (fst r) with
  | Some err => unit_ ((None, Some err), snd r)
  | None =>
      x <- base_RoundTrip base (snd (fst r)) ;;
      match x with
      | inl resp => unit_ ((Some resp, None), snd r)
      | inr err => unit_ ((None, Some err), snd r)
      end
  end.

(** What an attempt of [refreshToken] that fails does: the wait before
    it, unless it is the first, the reading of the clock and the request. *)
Definition failedTry (a : AuthClient) (c : HTTPClient) (attempt : nat) : list Event :=
  (if (0 <? attempt)%nat then [Waited (backoffOf a attempt)] else [])
  ++ [Clock; Sent c (authRequest a)].

Definition failedTries (a : AuthClient) (c : HTTPClient) (k : nat) : list Event :=
  flat_map (failedTry a c) (seq 0 k).

(** The text of the error of [doAuthenticate] for a status that is not
    200. *)
Definition statusError (resp : Response) : error :=
  Errorf [Lit "authentication failed with status code ";
          VerbD (StatusCode resp); Lit ": "; VerbS (ResponseBody resp)].

(** Two values of a client with the same settings: all fields but the
    token, its expiry and the time of the last attempt. *)
Definition sameSettings (a a' : AuthClient) : Prop :=
  baseURL a' = baseURL a /\ username a' = username a /\
  password a' = password a /\ httpClient a' = httpClient a /\
  minAuthInterval a' = minAuthInterval a /\ maxRetries a' = maxRetries a /\
  retryBaseDelay a' = retryBaseDelay a.

(** What [GetToken] may return and leave: a token that is not empty, which
    is the stored one, and no error; or an error and the empty string,
    with the stored token and its expiry as before. *)
Definition tokenOrError (a a' : AuthClient) (r : string * option error) : Prop :=
  (exists tok, r = (tok, None) /\ tok <> EmptyString /\ token a' = tok) \/
  (exists e, r = (EmptyString, Some e) /\
             token a' = token a /\ tokenExpiry a' = tokenExpiry a).

End Methods.

End Auth.

(** Test doubles for the token client. *)
Module AuthDouble.

Import Auth.

(** A service that answers the first [k] logins with status 400 and then
    grants the token "T1".  The clock starts at 1000 seconds and advances
    by a second with every reading; the context is never done. *)
Definition limited (k : nat) : Net :=
  mkNet (fun n => (1000 + Z.of_nat n) * Second)
        (fun _ _ => None)
        (fun _ _ => None)
        (fun n _ _ =>
           if (n <? k)%nat then inl (mkResponse 400 "Too frequently")
           else inl (mkResponse 200 "token"))
        (fun _ _ _ => inl (mkResponse 204 EmptyString))
        (fun _ => "password=p&username=u"%string)
        (fun _ => inl (mkTokenResponse "T1" "bearer")).

(** A service that cannot be reached. *)
Definition down : Net :=
  mkNet (fun n => (1000 + Z.of_nat n) * Second)
        (fun _ _ => None)
        (fun _ _ => None)
        (fun _ _ _ => inr (errorString "connection refused"))
        (fun _ _ _ => inr (errorString "connection refused"))
        (fun _ => "password=p&username=u"%string)
        (fun _ => inl (mkTokenResponse "T1" "bearer")).

(** A caller that gives up: the clock stands at one second and the
    context is done before any timer fires. *)
Definition impatient : Net :=
  mkNet (fun _ => 1 * Second)
        (fun _ _ => Some (errorString "context canceled"))
        (fun _ _ => None)
        (fun _ _ _ => inl (mkResponse 200 "token"))
        (fun _ _ _ => inl (mkResponse 204 EmptyString))
        (fun _ => "password=p&username=u"%string)
        (fun _ => inl (mkTokenResponse "T1" "bearer")).

Definition plain : HTTPClient := mkHTTPClient nilTripper (30 * Second).

Definition fresh : AuthClient := NewAuthClient "http://x" "u" "p" None.

(** A client with the token "T1" until the second 5000. *)
Definition logged : AuthClient := setToken "T1" (5000 * Second) fresh.

Definition probe : Request :=
  mkRequest "GET" "http://x/monitors" EmptyString
            [("Accept", "application/json"); ("Authorization", "Bearer old")]%string.

End AuthDouble.

(** * The colour of a tag

    The schema of the tag resource validates [color] with
    [stringvalidator.RegexMatches] on the pattern
    [^#([0-9A-Fa-f]{3}){1,2}$].  The pattern is kept as a term; a text
    matches when it can be cut as the term asks.  With [^] and [$] (no
    flag) the match covers the whole text.  Texts are taken by bytes: a
    byte outside ASCII is in none of the ranges. *)

Module Tag.

Inductive regexp : Type :=
| Chr (a : ascii)                          (* one character *)
| Class (ranges : list (ascii * ascii))    (* [a-bc-d] *)
| Cat (r1 r2 : regexp)                     (* r1 r2 *)
| Repeat (min max : nat) (r : regexp).     (* r{min,max} *)

Definition inRanges (ranges : list (ascii * ascii)) (a : ascii) : bool :=
  existsb (fun r => (nat_of_ascii (fst r) <=? nat_of_ascii a)%nat
                    && (nat_of_ascii a <=? nat_of_ascii (snd r))%nat)
          ranges.

(** The cuts of a text in two. *)
Definition cuts (l : list ascii) : list (list ascii * list ascii) :=
  map (fun i => (firstn i l, skipn i l)) (seq 0 (S (length l))).

(** [k] pieces in a row, each accepted by [m]. *)
Fixpoint matchesTimes (m : list ascii -> bool) (k : nat) (l : list ascii) : bool :=
  match k with
  | O => match l with [] => true | _ => false end
  | S k' =>
      existsb (fun c => m (fst c) && matchesTimes m k' (snd c)) (cuts l)
  end.

Fixpoint matches (r : regexp) (l : list ascii) : bool :=
  match r with
  | Chr a => match l with [b] => Ascii.eqb b a | _ => false end
  | Class ranges => match l with [b] => inRanges ranges b | _ => false end
  | Cat r1 r2 =>
      existsb (fun c => matches r1 (fst c) && matches r2 (snd c)) (cuts l)
  | Repeat min max r0 =>
      existsb (fun k => matchesTimes (matches r0) k l) (seq min (S max - min))
  end.

(** [#([0-9A-Fa-f]{3}){1,2}], the pattern between its anchors. *)
Definition hexRanges : list (ascii * ascii) :=
  [("0", "9"); ("A", "F"); ("a", "f")]%char.

Definition colorPattern : regexp :=
  Cat (Chr "#") (Repeat 1 2 (Repeat 3 3 (Class hexRanges))).

(** The validator on a known value of [color]. *)
Definition validColor (s : string) : bool :=
  matches colorPattern (list_ascii_of_string s).

(** The hexadecimal digits, one by one. *)
Definition isHexDigit (a : ascii) : bool :=
  existsb (Ascii.eqb a) (list_ascii_of_string "0123456789ABCDEFabcdef").

End Tag.

(** * Properties *)

Section Properties.

Variable T : Transport.

(** ** The monad *)

Lemma bind_Done (A B : Type) (m : M A) (f : A -> M B) (w w' : World) (a : A) :
  m w = Done a w' -> bind m f w = f a w'.
Proof. unfold bind; intros ->; reflexivity. Qed.

Lemma bind_ret (A B : Type) (a : A) (f : A -> M B) (w : World) :
  bind (ret a) f w = f a w.
Proof. reflexivity. Qed.

(** ** Formatting *)

Lemma Error_Errorf (ps : list piece) : Error (Errorf ps) = Sprint ps.
Proof. unfold Errorf; destruct (wrapped ps); reflexivity. Qed.

Lemma append_empty (s : string) : (s ++ "")%string = s.
Proof. induction s as [|a s IH]; simpl; [|rewrite IH]; reflexivity. Qed.

Lemma string_eqb_eq (s t : string) : (s =? t)%string = true <-> s = t.
Proof. apply String.eqb_eq. Qed.

(** ** [configMatches]: equality of the three credentials *)

Lemma configMatches_iff (p : Pool) (pc cfg : Config) :
  config p = Some pc ->
  configMatches p cfg = true <->
  BaseURL pc = BaseURL cfg /\ Username pc = Username cfg /\
  Password pc = Password cfg.
Proof.
  intros Hc; unfold configMatches; rewrite Hc.
  rewrite !andb_true_iff, !String.eqb_eq; tauto.
Qed.

Lemma configMatches_nil (p : Pool) (cfg : Config) :
  config p = None -> configMatches p cfg = false.
Proof. intros Hc; unfold configMatches; rewrite Hc; reflexivity. Qed.

(** ** [wrapInt] *)

Lemma wrapInt_in_range (z : Z) : minInt <= z <= maxInt -> wrapInt z = z.
Proof.
  unfold wrapInt, minInt, maxInt; intros H.
  rewrite Z.mod_small by lia. lia.
Qed.

Lemma wrapInt_maxInt : wrapInt (maxInt + 1) = minInt.
Proof. reflexivity. Qed.

(** ** [New]: validation and the choice of the pool *)

(** C5. [New] on a config whose [BaseURL] is empty returns the error
    "base URL is required" at once: no call of [kuma.New], no sleep, and
    nothing else done to the world, whatever [EnableConnectionPool] and the
    environment say. *)
Theorem New_empty_BaseURL (cfg : Config) (w : World) :
  BaseURL cfg = EmptyString ->
  exists e w',
    New T cfg w = Done (None, Some e) w' /\
    ConfigError e /\
    w' = w /\ events w' = events w.
Proof.
  intros HB.
  exists (errorString "base URL is required"), w.
  unfold New; rewrite HB; simpl.
  repeat split.
Qed.

(** C9. In [New], for a config that passes validation: pooling is on when
    [EnableConnectionPool] is set, without looking at the environment;
    when the flag is not set, pooling is on exactly when the variable
    [UPTIMEKUMA_ENABLE_CONNECTION_POOL] is the string "true".  With pooling
    on [New] is [GetOrCreate] on the global pool, otherwise it is
    [newClientDirect]. *)
Theorem New_pooling_decision (cfg : Config) (w : World) :
  BaseURL cfg <> EmptyString ->
  let var := environ w "UPTIMEKUMA_ENABLE_CONNECTION_POOL" in
  poolEnabled cfg w = Done (EnableConnectionPool cfg || (var =? "true")%string) w /\
  (EnableConnectionPool cfg = true ->
     New T cfg w = onGlobalPool (fun pool => GetOrCreate T pool cfg) w) /\
  (EnableConnectionPool cfg = false -> var = "true"%string ->
     New T cfg w = onGlobalPool (fun pool => GetOrCreate T pool cfg) w) /\
  (EnableConnectionPool cfg = false -> var <> "true"%string ->
     New T cfg w = newClientDirect T cfg w).
Proof.
  intros HB var.
  assert (HE : (BaseURL cfg =? "")%string = false)
    by (apply String.eqb_neq; exact HB).
  assert (Hp : poolEnabled cfg w =
               Done (EnableConnectionPool cfg || (var =? "true")%string) w).
  { unfold poolEnabled; destruct (EnableConnectionPool cfg); reflexivity. }
  split; [exact Hp|].
  unfold New; rewrite HE.
  repeat split.
  - intros Hf. rewrite (@bind_Done _ _ _ _ _ _ _ Hp), Hf. reflexivity.
  - intros Hf Hv. rewrite (@bind_Done _ _ _ _ _ _ _ Hp), Hf.
    apply String.eqb_eq in Hv. rewrite Hv. reflexivity.
  - intros Hf Hv. rewrite (@bind_Done _ _ _ _ _ _ _ Hp), Hf.
    apply String.eqb_neq in Hv. rewrite Hv. reflexivity.
Qed.

(** ** [Client.Disconnect] *)

(** C10. [Disconnect] always returns.  On a [Client] whose [Kuma] is [nil]
    it returns [nil] and leaves the world as it is, so the library is not
    called; on a [Client] with a handle it calls the library's
    [Disconnect] once, on that handle, and returns its result. *)
Theorem Disconnect_total (c : Client) (w : World) :
  match Kuma c with
  | None => Disconnect T c w = Done None w
  | Some k =>
      Disconnect T c w =
      Done (kumaDisconnect T (length (closed (events w))) k)
           (record (Disconnected k) w)
  end.
Proof. unfold Disconnect; destruct (Kuma c); reflexivity. Qed.

(** ** [Pool.Release] *)

(** C7. [Release] returns on every state of the pool.  It takes one from
    [refs] when [refs > 0] and changes nothing when [refs] is 0, so a
    count that is not negative stays so; [client] and [config] keep their
    values and the world is untouched, so no session is closed. *)
Theorem Release_refcount (p : Pool) (w : World) :
  exists p',
    Release p w = Done (tt, p') w /\
    client p' = client p /\ config p' = config p /\
    (0 < refs p -> refs p' = refs p - 1) /\
    (refs p = 0 -> p' = p) /\
    (0 <= refs p -> 0 <= refs p').
Proof.
  unfold Release.
  destruct (0 <? refs p) eqn:E.
  - apply Z.ltb_lt in E.
    eexists; split; [reflexivity|]; simpl.
    repeat split; intros; lia.
  - apply Z.ltb_ge in E.
    exists p; split; [reflexivity|].
    repeat split; intros; try lia; auto.
Qed.

(** ** Runs of events *)

Lemma dialed_app (l1 l2 : list Event) : dialed (l1 ++ l2) = dialed l1 ++ dialed l2.
Proof.
  induction l1 as [|e l1 IH]; simpl; [reflexivity|].
  destruct e; simpl; rewrite IH; reflexivity.
Qed.

Lemma drawn_app (l1 l2 : list Event) : drawn (l1 ++ l2) = (drawn l1 + drawn l2)%nat.
Proof.
  induction l1 as [|e l1 IH]; simpl; [reflexivity|].
  destruct e; simpl; rewrite IH; reflexivity.
Qed.

Lemma slept_app (l1 l2 : list Event) : slept (l1 ++ l2) = slept l1 ++ slept l2.
Proof.
  induction l1 as [|e l1 IH]; simpl; [reflexivity|].
  destruct e; simpl; rewrite IH; reflexivity.
Qed.

Lemma closed_app (l1 l2 : list Event) : closed (l1 ++ l2) = closed l1 ++ closed l2.
Proof.
  induction l1 as [|e l1 IH]; simpl; [reflexivity|].
  destruct e; simpl; rewrite IH; reflexivity.
Qed.

Lemma extend_extend (l1 l2 : list Event) (w : World) :
  extend l2 (extend l1 w) = extend (l1 ++ l2) w.
Proof. unfold extend; simpl; rewrite app_assoc; reflexivity. Qed.

Lemma extend_nil (w : World) : extend [] w = w.
Proof. destruct w; unfold extend; simpl; rewrite app_nil_r; reflexivity. Qed.

Section RunLemmas.

Variable N : nat.
Variable bd : Duration.
Variable cfg : Config.
Variable errs : nat -> error.
Variable draws : nat.

Let attempts := failedAttempts T N bd cfg errs draws.

Lemma failedAttempts_S (k : nat) :
  attempts (S k) = attempts k ++ failedAttempt T N bd cfg errs draws k.
Proof.
  unfold attempts, failedAttempts.
  rewrite seq_S, flat_map_app; simpl. reflexivity.
Qed.

Lemma dialed_failedAttempts (k : nat) :
  dialed (attempts k) = repeat (credentials cfg) k.
Proof.
  induction k as [|k IH]; [reflexivity|].
  rewrite failedAttempts_S, dialed_app, IH; simpl.
  rewrite repeat_cons; reflexivity.
Qed.

Lemma drawn_failedAttempts (k : nat) : drawn (attempts k) = k.
Proof.
  induction k as [|k IH]; [reflexivity|].
  rewrite failedAttempts_S, drawn_app, IH; simpl. lia.
Qed.

Lemma slept_failedAttempts (k : nat) :
  slept (attempts k) = map (sleepOf T bd draws) (seq 0 k).
Proof.
  induction k as [|k IH]; [reflexivity|].
  rewrite failedAttempts_S, slept_app, IH, seq_S, map_app; reflexivity.
Qed.

Lemma closed_failedAttempts (k : nat) : closed (attempts k) = [].
Proof.
  induction k as [|k IH]; [reflexivity|].
  rewrite failedAttempts_S, closed_app, IH; reflexivity.
Qed.

End RunLemmas.

(** ** The retry loop *)

Section RetryLemmas.

Variable N : nat.
Variable bd : Duration.
Variable cfg : Config.

Let dial (n : nat) : KumaClient + error :=
  kumaNew T n (BaseURL cfg) (Username cfg) (Password cfg).

Let call : Event := Dialed (BaseURL cfg) (Username cfg) (Password cfg).

(** One turn of the loop. *)
Lemma retryLoop_cons (i : nat) (todo : list nat) (err : option error) (w : World) :
  retryLoop T N bd cfg (i :: todo) err w =
  match dial (length (dialed (events w))) with
  | inl k =>
      Done (Returned (mkClient (allocated w) (Some k)))
           (setAllocated (S (allocated w)) (extend [call] w))
  | inr e =>
      if (i =? N)%nat then Done (Fell (Some e)) (extend [call] w)
      else
        let d := sleepFor T bd i (randFloat64 T (drawn (events w))) in
        retryLoop T N bd cfg todo (Some e)
          (extend [call; Drew;
                   Printed (mkRetryLine (Z.of_nat i + 1) (Z.of_nat N + 1)
                                        (Error e) d);
                   Slept d] w)
  end.
Proof.
  simpl. unfold bind at 1, kuma_New at 1. fold (dial (length (dialed (events w)))).
  destruct (dial (length (dialed (events w)))) as [k|e]; [reflexivity|].
  destruct (i =? N)%nat; [reflexivity|].
  unfold bind, rand_Float64, fmt_Printf, time_Sleep, record.
  rewrite !extend_extend; simpl.
  rewrite drawn_app; simpl. rewrite Nat.add_0_r. reflexivity.
Qed.

(** The loop returns whatever the surroundings answer. *)
Lemma retryLoop_returns (todo : list nat) (err : option error) (w : World) :
  exists x w', retryLoop T N bd cfg todo err w = Done x w'.
Proof.
  revert err w; induction todo as [|i todo IH]; intros err w.
  - eexists _, _; reflexivity.
  - rewrite retryLoop_cons.
    destruct (dial _) as [k|e]; [eexists _, _; reflexivity|].
    destruct (i =? N)%nat; [eexists _, _; reflexivity|].
    apply IH.
Qed.

(** [k] attempts that fail before the last turn: each one is followed by a
    draw, a line and a sleep, and the loop goes on. *)
Lemma retryLoop_failures (errs : nat -> error) (w : World) (k : nat) :
  forall (todo : list nat) (err : option error),
    (k <= N)%nat ->
    (forall j, (j < k)%nat -> dial (length (dialed (events w)) + j) = inr (errs j)) ->
    retryLoop T N bd cfg (seq 0 k ++ todo) err w =
    retryLoop T N bd cfg todo (lastErr errs k err)
      (extend (failedAttempts T N bd cfg errs (drawn (events w)) k) w).
Proof.
  induction k as [|k IH]; intros todo err Hk Hfail.
  - simpl. unfold failedAttempts; simpl. rewrite extend_nil; reflexivity.
  - rewrite seq_S, <- app_assoc; simpl.
    rewrite IH by (try lia; intros j Hj; apply Hfail; lia).
    rewrite retryLoop_cons; simpl.
    rewrite dialed_app, length_app, dialed_failedAttempts, repeat_length.
    rewrite (Hfail k) by lia.
    replace (k =? N)%nat with false by (symmetry; apply Nat.eqb_neq; lia).
    rewrite drawn_app, drawn_failedAttempts.
    rewrite extend_extend, failedAttempts_S.
    reflexivity.
Qed.

End RetryLemmas.

(** ** The length of a sleep *)







(** ** Whole runs of [newClientDirect] *)

Section RetryRuns.

Variable N : nat.
Variable bd : Duration.
Variable cfg : Config.
Variable errs : nat -> error.
Variable w : World.

Let dial (n : nat) : KumaClient + error :=
  kumaNew T n (BaseURL cfg) (Username cfg) (Password cfg).

Let call : Event := Dialed (BaseURL cfg) (Username cfg) (Password cfg).

Let attempts := failedAttempts T N bd cfg errs (drawn (events w)).

Lemma dialed_run (k : nat) :
  dialed (events w ++ attempts k ++ [call]) =
  dialed (events w) ++ repeat (credentials cfg) (k + 1).
Proof.
  unfold attempts.
  rewrite !dialed_app, dialed_failedAttempts, repeat_app; reflexivity.
Qed.

Lemma slept_run (k : nat) :
  slept (events w ++ attempts k ++ [call]) =
  slept (events w) ++ map (sleepOf T bd (drawn (events w))) (seq 0 k).
Proof.
  unfold attempts.
  rewrite !slept_app, slept_failedAttempts; simpl.
  rewrite app_nil_r; reflexivity.
Qed.

(** [k <= N] failures and then a success. *)
Lemma retryLoop_succeeds (k : nat) (s : KumaClient) :
  (k <= N)%nat ->
  (forall j, (j < k)%nat -> dial (length (dialed (events w)) + j) = inr (errs j)) ->
  dial (length (dialed (events w)) + k) = inl s ->
  retryLoop T N bd cfg (seq 0 (S N)) None w =
  Done (Returned (mkClient (allocated w) (Some s)))
       (setAllocated (S (allocated w)) (extend (attempts k ++ [call]) w)).
Proof.
  intros Hk Hfail Hok.
  replace (S N) with (k + S (N - k))%nat by lia.
  rewrite seq_app; simpl.
  rewrite (retryLoop_failures bd cfg errs w _ _ Hk Hfail).
  rewrite retryLoop_cons; simpl.
  rewrite dialed_app, length_app, dialed_failedAttempts, repeat_length.
  unfold dial in Hok; rewrite Hok.
  rewrite extend_extend; reflexivity.
Qed.

(** [N + 1] failures. *)
Lemma retryLoop_exhausted :
  (forall j, (j <= N)%nat -> dial (length (dialed (events w)) + j) = inr (errs j)) ->
  retryLoop T N bd cfg (seq 0 (S N)) None w =
  Done (Fell (Some (errs N))) (extend (attempts N ++ [call]) w).
Proof.
  intros Hfail.
  rewrite seq_S; simpl.
  rewrite (retryLoop_failures bd cfg errs w [N] None (Nat.le_refl N))
    by (intros j Hj; apply Hfail; lia).
  rewrite retryLoop_cons; simpl.
  rewrite dialed_app, length_app, dialed_failedAttempts, repeat_length.
  pose proof (Hfail N (Nat.le_refl N)) as HN; unfold dial in HN; rewrite HN.
  rewrite Nat.eqb_refl, extend_extend; reflexivity.
Qed.

End RetryRuns.


(** C2. With [maxRetries = N] and a [kuma.New] that fails every time,
    [newClientDirect] returns the error "failed to connect to Uptime Kuma
    after N+1 attempts: ..." that wraps the error of the last call.  It
    calls [kuma.New] [N + 1] times and sleeps [N] times: each failure but
    the last is followed by a sleep, and the last event is the last
    call. *)
Theorem newClientDirect_exhausted
  (N : nat) (bd : Duration) (cfg : Config) (errs : nat -> error) (w : World) :
  (forall j, (j <= N)%nat ->
     kumaNew T (length (dialed (events w)) + j)
             (BaseURL cfg) (Username cfg) (Password cfg) = inr (errs j)) ->
  exists e w',
    newClientDirectWith T N bd cfg w = Done (None, Some e) w' /\
    ConnectionExhaustedError (Z.of_nat N + 1) (errs N) e /\
    events w' =
      events w ++ failedAttempts T N bd cfg errs (drawn (events w)) N
               ++ [Dialed (BaseURL cfg) (Username cfg) (Password cfg)] /\
    dialed (events w') = dialed (events w) ++ repeat (credentials cfg) (N + 1) /\
    length (slept (events w')) = (length (slept (events w)) + N)%nat.
Proof.
  intros Hfail.
  eexists _, _; split.
  { unfold newClientDirectWith.
    rewrite (@bind_Done _ _ _ _ _ _ _ (@retryLoop_exhausted N bd cfg errs w Hfail)).
    reflexivity. }
  split.
  { split; [reflexivity|].
    rewrite Error_Errorf; unfold Sprint, render.
    rewrite append_empty; reflexivity. }
  split; [reflexivity|].
  split; [apply dialed_run|].
  simpl events. rewrite slept_run, length_app, length_map, length_seq.
  reflexivity.
Qed.

(** ** Every run of [newClientDirect] *)

(** The loop calls [kuma.New] with the credentials of the config, at least
    once when there is a turn to run, and disconnects nothing. *)
Lemma retryLoop_dials (N : nat) (bd : Duration) (cfg : Config) (todo : list nat) :
  forall (err : option error) (w : World),
  exists x w' n,
    retryLoop T N bd cfg todo err w = Done x w' /\
    dialed (events w') = dialed (events w) ++ repeat (credentials cfg) n /\
    (n <= length todo)%nat /\ (todo <> [] -> 1 <= n)%nat /\
    closed (events w') = closed (events w).
Proof.
  induction todo as [|i todo IH]; intros err w.
  - exists (Fell err), w, 0%nat; simpl.
    rewrite app_nil_r; repeat split; auto. congruence.
  - rewrite retryLoop_cons.
    destruct (kumaNew T _ _ _ _) as [k|e].
    + eexists _, _, 1%nat; split; [reflexivity|]; simpl.
      rewrite dialed_app, closed_app; simpl; rewrite app_nil_r.
      repeat split; auto; lia.
    + destruct (i =? N)%nat.
      * eexists _, _, 1%nat; split; [reflexivity|]; simpl.
        rewrite dialed_app, closed_app; simpl; rewrite app_nil_r.
        repeat split; auto; lia.
      * cbv zeta.
        match goal with |- context [retryLoop T N bd cfg todo ?e ?w1] =>
          destruct (IH e w1) as (x & w' & n & Hrun & Hd & Hn & _ & Hc) end.
        exists x, w', (S n); split; [exact Hrun|].
        rewrite Hd, Hc; simpl.
        rewrite dialed_app, closed_app; simpl.
        rewrite <- app_assoc, app_nil_r; simpl.
        repeat split; auto; lia.
Qed.

(** [newClientDirect] returns on every world, with a client and no error
    or with an error and no client, after at least one call of
    [kuma.New]. *)
Lemma newClientDirect_returns (cfg : Config) (w : World) :
  exists r w' n,
    newClientDirect T cfg w = Done r w' /\
    ((exists c, r = (Some c, None)) \/ (exists e, r = (None, Some e))) /\
    (1 <= n)%nat /\
    dialed (events w') = dialed (events w) ++ repeat (credentials cfg) n /\
    closed (events w') = closed (events w).
Proof.
  unfold newClientDirect, newClientDirectWith.
  destruct (retryLoop_dials 5 (5 * Second) cfg (seq 0 6) None w)
    as (x & w' & n & Hrun & Hd & _ & Hn & Hc).
  rewrite (@bind_Done _ _ _ _ _ _ _ Hrun).
  destruct x as [c|err].
  - exists (Some c, None), w', n; repeat split; auto.
    + left; eexists; reflexivity.
    + apply Hn; discriminate.
  - eexists (None, Some _), w', n; repeat split; auto.
    + right; eexists; reflexivity.
    + apply Hn; discriminate.
Qed.

(** ** [Pool.GetOrCreate] *)

(** C3. When the pool holds a client and the requested config has the
    [BaseURL], [Username] and [Password] of the stored one (whatever its
    [EnableConnectionPool]), [GetOrCreate] returns the held client and
    adds one to [refs]; the world is as before, so neither
    [newClientDirect] nor [kuma.New] has run.  [refs] is taken below the
    largest [int], where [++] does not wrap. *)
Theorem GetOrCreate_reuses (p : Pool) (c : Client) (pc cfg : Config) (w : World) :
  client p = Some c ->
  config p = Some pc ->
  BaseURL pc = BaseURL cfg /\ Username pc = Username cfg /\
  Password pc = Password cfg ->
  minInt <= refs p < maxInt ->
  exists p',
    GetOrCreate T p cfg w = Done ((Some c, None), p') w /\
    refs p' = refs p + 1 /\
    client p' = Some c /\ config p' = Some pc.
Proof.
  intros Hcl Hcf Heq Hr.
  unfold GetOrCreate; rewrite Hcl.
  rewrite (proj2 (configMatches_iff p cfg Hcf) Heq); simpl.
  eexists; split; [reflexivity|]; simpl.
  rewrite wrapInt_in_range by (unfold minInt, maxInt in *; lia).
  auto.
Qed.

(** C4. When the pool holds a client and the requested config differs from
    the stored one in [BaseURL], [Username] or [Password], [GetOrCreate]
    returns the mismatch error, whose text carries the stored and the
    requested URL; the pool and the world are as before. *)
Theorem GetOrCreate_mismatch (p : Pool) (c : Client) (pc cfg : Config) (w : World) :
  client p = Some c ->
  config p = Some pc ->
  ~ (BaseURL pc = BaseURL cfg /\ Username pc = Username cfg /\
     Password pc = Password cfg) ->
  exists e,
    GetOrCreate T p cfg w = Done ((None, Some e), p) w /\
    ConfigMismatchError (BaseURL pc) (BaseURL cfg) e.
Proof.
  intros Hcl Hcf Hneq.
  unfold GetOrCreate; rewrite Hcl.
  destruct (configMatches p cfg) eqn:E.
  - apply (configMatches_iff p cfg Hcf) in E. contradiction.
  - simpl; rewrite Hcf.
    eexists; split; [reflexivity|].
    split; [reflexivity|].
    rewrite Error_Errorf; unfold Sprint, render.
    rewrite append_empty; reflexivity.
Qed.

(** C8. When the pool holds no client, [GetOrCreate] runs
    [newClientDirect].  If that fails, [GetOrCreate] returns an error that
    wraps the error of [newClientDirect] ("failed to create pooled
    connection: ...") and the pool is as before, so it still holds no
    client, and the pool [&Pool{}] still has no config and [refs = 0].  If
    it succeeds, the pool holds the new client, the config and
    [refs = 1], and the new client is returned. *)
Theorem GetOrCreate_creates (p : Pool) (cfg : Config) (w : World) :
  client p = None ->
  exists r w',
    newClientDirect T cfg w = Done r w' /\
    match r with
    | (Some c, None) =>
        GetOrCreate T p cfg w =
        Done ((Some c, None), mkPool (Some c) (Some cfg) 1) w'
    | (None, Some err) =>
        exists e,
          GetOrCreate T p cfg w = Done ((None, Some e), p) w' /\
          Unwrap e = Some err /\
          Error e = ("failed to create pooled connection: " ++ Error err)%string
    | _ => False
    end.
Proof.
  intros Hcl.
  destruct (newClientDirect_returns cfg w) as (r & w' & n & Hrun & Hr & _).
  exists r, w'; split; [exact Hrun|].
  unfold GetOrCreate; rewrite Hcl.
  rewrite (@bind_Done _ _ _ _ _ _ _ Hrun).
  destruct Hr as [[c ->]|[e ->]].
  - reflexivity.
  - eexists; split; [reflexivity|].
    split; [reflexivity|].
    rewrite Error_Errorf; unfold Sprint, render.
    rewrite append_empty; reflexivity.
Qed.

(** ** [Pool.Close] *)

(** On a pool that holds no client [GetOrCreate] calls [kuma.New] with
    the credentials of the requested config. *)
Lemma GetOrCreate_empty_dials (p : Pool) (cfg : Config) (w : World) :
  client p = None ->
  exists r p' w' n,
    GetOrCreate T p cfg w = Done (r, p') w' /\
    (1 <= n)%nat /\
    dialed (events w') = dialed (events w) ++ repeat (credentials cfg) n.
Proof.
  intros Hcl.
  destruct (newClientDirect_returns cfg w)
    as (r & w' & n & Hrun & Hr & Hn & Hd & _).
  unfold GetOrCreate; rewrite Hcl.
  rewrite (@bind_Done _ _ _ _ _ _ _ Hrun).
  destruct Hr as [[c ->]|[e ->]];
    eexists _, _, w', n; (split; [reflexivity|]); auto.
Qed.

(** C6. [Close] on a pool that holds no client returns [nil] and changes
    nothing.  On a pool that holds a client, whatever [refs] is, it calls
    the library's [Disconnect] once, on the session of that client,
    returns its result, and leaves the pool empty: no client, no config,
    [refs = 0].  [GetOrCreate] on the pool so left, for any config and in
    any later world, runs [newClientDirect]: it calls [kuma.New] with the
    credentials of that config. *)
Theorem Close_resets (p : Pool) (w : World) :
  match client p with
  | None => Close T p w = Done (None, p) w
  | Some c =>
      exists err w',
        Close T p w = Done (err, mkPool None None 0) w' /\
        match Kuma c with
        | Some k =>
            err = kumaDisconnect T (length (closed (events w))) k /\
            events w' = events w ++ [Disconnected k]
        | None => err = None /\ w' = w
        end /\
        forall (cfg : Config) (w2 : World),
        exists r p2 w3 n,
          GetOrCreate T (mkPool None None 0) cfg w2 = Done (r, p2) w3 /\
          (1 <= n)%nat /\
          dialed (events w3) =
            dialed (events w2) ++ repeat (credentials cfg) n
  end.
Proof.
  unfold Close, Disconnect.
  destruct (client p) as [c|]; [|reflexivity].
  destruct (Kuma c) as [k|].
  - eexists _, _; split; [reflexivity|].
    split; [split; reflexivity|].
    intros cfg w2. apply GetOrCreate_empty_dials; reflexivity.
  - eexists _, _; split; [reflexivity|].
    split; [split; reflexivity|].
    intros cfg w2. apply GetOrCreate_empty_dials; reflexivity.
Qed.

(** ** The states of the pool *)

Lemma retryLoop_client (N : nat) (bd : Duration) (cfg : Config) (todo : list nat) :
  forall (err : option error) (w w' : World) (c : Client),
    retryLoop T N bd cfg todo err w = Done (Returned c) w' ->
    exists k, Kuma c = Some k.
Proof.
  induction todo as [|i todo IH]; intros err w w' c.
  - simpl; unfold ret; discriminate.
  - rewrite retryLoop_cons.
    destruct (kumaNew T _ _ _ _) as [k|e].
    + intros H; inversion H; subst; simpl; eauto.
    + destruct (i =? N)%nat; [discriminate|]. apply IH.
Qed.

Lemma newClientDirect_client (cfg : Config) (w w' : World) (c : option Client) :
  newClientDirect T cfg w = Done (c, None) w' ->
  exists c' k, c = Some c' /\ Kuma c' = Some k.
Proof.
  unfold newClientDirect, newClientDirectWith, bind.
  destruct (retryLoop T 5 (5 * Second) cfg (seq 0 6) None w)
    as [[c'|err] w1|msg w1] eqn:E; try discriminate.
  intros H; inversion H; subst.
  destruct (retryLoop_client _ _ _ _ _ _ E) as [k Hk]; eauto.
Qed.

(** Every state that the methods produce is well formed. *)
Lemma reachable_wellFormed (p : Pool) : reachable T p -> wellFormed p.
Proof.
  induction 1 as [|p cfg w r p' w' _ IH Hrun|p w p' w' _ IH Hrun
                  |p w r p' w' _ IH Hrun].
  - reflexivity.
  - unfold GetOrCreate in Hrun.
    pose proof IH as IH'; unfold wellFormed in IH'.
    destruct (client p) as [c|] eqn:Hcl.
    + destruct IH' as [[pc Hpc] Hk].
      destruct (negb (configMatches p cfg)).
      * rewrite Hpc in Hrun; inversion Hrun; subst p'; exact IH.
      * inversion Hrun; subst p'. unfold wellFormed; simpl; eauto.
    + unfold bind in Hrun.
      destruct (newClientDirect T cfg w) as [[c [e|]] w1|msg w1] eqn:E;
        try discriminate.
      * inversion Hrun; subst p'; exact IH.
      * inversion Hrun; subst p'.
        destruct (newClientDirect_client _ _ E) as (c' & k & -> & Hk).
        unfold wellFormed; simpl; eauto.
  - unfold Release in Hrun.
    pose proof IH as IH'; unfold wellFormed in IH'.
    destruct (0 <? refs p) eqn:Hr; inversion Hrun; subst p'; [|exact IH].
    destruct (client p) as [c|] eqn:Hcl.
    + unfold wellFormed; simpl; exact IH'.
    + rewrite IH' in Hr; discriminate.
  - unfold Close in Hrun.
    destruct (client p) as [c|] eqn:Hcl.
    + unfold bind in Hrun.
      destruct (Disconnect T c w); inversion Hrun; reflexivity.
    + inversion Hrun; subst p'; exact IH.
Qed.

End Properties.

(** * The properties on the test doubles *)

Import Double.

(** The scenario of the pool: both acquires return the client made by the
    first, the count goes 1, 2, 1, 0, the close is the only disconnect,
    and the acquire after it makes a new client from a new session. *)
Example scenario_run :
  exists w',
    scenario (boot "") =
    Done ([Some (mkClient 0 (Some 0%nat)); Some (mkClient 0 (Some 0%nat));
           Some (mkClient 1 (Some 1%nat))],
          [1; 2; 1; 0; 0; 1],
          mkPool (Some (mkClient 1 (Some 1%nat))) (Some cfgX) 1) w' /\
    events w' = [Dialed "http://x" "a" "b"; Disconnected 0%nat;
                 Dialed "http://x" "a" "b"].
Proof. eexists; split; vm_compute; reflexivity. Qed.

(** The sleeps of the source, five failures at draws of 0.5: 5, 10 and 20
    seconds, then the cap. *)
Example sleeps_of_a_dead_server :
  exists r w',
    newClientDirect (flaky 6) cfgX (boot "") = Done r w' /\
    slept (events w') =
      [5 * Second; 10 * Second; 20 * Second; 30 * Second; 30 * Second].
Proof. eexists _, _; split; vm_compute; reflexivity. Qed.


Lemma newClientDirect_exhausted_witness :
  exists e w',
    newClientDirect (flaky 6) cfgX (boot "") = Done (None, Some e) w' /\
    Error e = "failed to connect to Uptime Kuma after 6 attempts: login: Too frequently"%string /\
    Unwrap e = Some (errorString "login: Too frequently") /\
    length (dialed (events w')) = 6%nat /\
    length (slept (events w')) = 5%nat.
Proof.
  destruct (@newClientDirect_exhausted
              (flaky 6) 5 (5 * Second) cfgX tooFrequently (boot ""))
    as (e & w' & Hrun & [Hu He] & _ & Hd & Hs).
  - intros j Hj; simpl.
    destruct (Nat.ltb_spec j 6); [reflexivity|lia].
  - exists e, w'; repeat split; try assumption.
    rewrite Hd; reflexivity.
Defined.

Lemma GetOrCreate_reuses_witness :
  GetOrCreate (flaky 0) held (mkConfig "http://x" "a" "b" true) (boot "") =
  Done ((client held, None), mkPool (client held) (config held) 4) (boot "").
Proof.
  destruct (@GetOrCreate_reuses (flaky 0) held (mkClient 0 (Some 7%nat)) cfgX
              (mkConfig "http://x" "a" "b" true) (boot ""))
    as (p' & Hrun & Hr & Hc & Hf).
  - reflexivity.
  - reflexivity.
  - repeat split.
  - unfold minInt, maxInt; simpl; lia.
  - rewrite Hrun. destruct p' as [c f r]; simpl in *; subst; reflexivity.
Defined.

Lemma GetOrCreate_mismatch_witness :
  exists e,
    GetOrCreate (flaky 0) held cfgY (boot "") = Done ((None, Some e), held) (boot "") /\
    Error e = "connection pool config mismatch: existing connection uses different credentials (URL: http://x vs http://y)"%string.
Proof.
  destruct (@GetOrCreate_mismatch (flaky 0) held (mkClient 0 (Some 7%nat)) cfgX
              cfgY (boot ""))
    as (e & Hrun & _ & He).
  - reflexivity.
  - reflexivity.
  - intros [H _]; discriminate H.
  - exists e; split; assumption.
Defined.

Lemma New_empty_BaseURL_witness :
  exists e w',
    New (flaky 0) cfgNoURL (boot "true") = Done (None, Some e) w' /\
    Error e = "base URL is required"%string /\ events w' = [].
Proof.
  destruct (@New_empty_BaseURL (flaky 0) cfgNoURL (boot "true") eq_refl)
    as (e & w' & Hrun & He & Hw & _).
  exists e, w'; repeat split; [assumption|rewrite He|rewrite Hw]; reflexivity.
Defined.

Lemma GetOrCreate_creates_witness :
  GetOrCreate (flaky 0) emptyPool cfgX (boot "") =
  Done ((Some (mkClient 0 (Some 0%nat)), None),
        mkPool (Some (mkClient 0 (Some 0%nat))) (Some cfgX) 1)
       (setAllocated 1 (extend [Dialed "http://x" "a" "b"] (boot ""))).
Proof.
  destruct (@GetOrCreate_creates (flaky 0) emptyPool cfgX (boot "") eq_refl)
    as (r & w' & Hrun & Hr).
  vm_compute in Hrun; inversion Hrun; subst r w'.
  exact Hr.
Defined.

Lemma New_pooling_decision_witness :
  New (flaky 0) cfgX (boot "TRUE") = newClientDirect (flaky 0) cfgX (boot "TRUE") /\
  New (flaky 0) cfgX (boot "1") = newClientDirect (flaky 0) cfgX (boot "1") /\
  New (flaky 0) cfgX (boot "true") =
    onGlobalPool (fun pool => GetOrCreate (flaky 0) pool cfgX) (boot "true").
Proof.
  assert (HX : BaseURL cfgX <> EmptyString) by discriminate.
  split; [|split].
  - apply (@New_pooling_decision (flaky 0) cfgX (boot "TRUE") HX);
      [reflexivity|discriminate].
  - apply (@New_pooling_decision (flaky 0) cfgX (boot "1") HX);
      [reflexivity|discriminate].
  - apply (@New_pooling_decision (flaky 0) cfgX (boot "true") HX);
      reflexivity.
Defined.

Lemma Release_refcount_witness :
  Release held (boot "") = Done (tt, mkPool (client held) (config held) 2) (boot "") /\
  Release emptyPool (boot "") = Done (tt, emptyPool) (boot "").
Proof.
  split.
  - destruct (Release_refcount held (boot "")) as (p' & Hrun & Hc & Hf & Hr & _).
    rewrite Hrun. destruct p' as [c f r]; simpl in *.
    rewrite Hc, Hf, Hr by lia. reflexivity.
  - destruct (Release_refcount emptyPool (boot "")) as (p' & Hrun & _ & _ & _ & H0 & _).
    rewrite Hrun, H0 by reflexivity. reflexivity.
Defined.

(** * Further properties of the retry loop *)

Section EveryRun.

Variable T : Transport.

(** The answers of the surroundings, up to [N]: a first success, or none. *)
Lemma first_answer (f : nat -> KumaClient + error) (N : nat) :
  (exists k s, (k <= N)%nat /\
               (forall j, (j < k)%nat -> f j = inr (errorOf (f j))) /\
               f k = inl s) \/
  (forall j, (j <= N)%nat -> f j = inr (errorOf (f j))).
Proof.
  induction N as [|N IH].
  - destruct (f 0%nat) as [s|e] eqn:E.
    + left; exists 0%nat, s; repeat split; auto; intros j Hj; lia.
    + right; intros j Hj. replace j with 0%nat by lia. rewrite E; reflexivity.
  - destruct IH as [(k & s & Hk & Hf & Hs)|Hall].
    + left; exists k, s; repeat split; auto.
    + destruct (f (S N)) as [s|e] eqn:E.
      * left; exists (S N), s; repeat split; auto.
        intros j Hj; apply Hall; lia.
      * right; intros j Hj.
        destruct (Nat.eq_dec j (S N)) as [->|Hne].
        -- rewrite E; reflexivity.
        -- apply Hall; lia.
Qed.

(** The sleep is never longer than 30 seconds, also when the conversion
    of the float leaves the range of [time.Duration]. *)
Lemma sleepFor_capped (bd : Duration) (i : nat) (u : Q) :
  sleepFor T bd i u <= 30 * Second.
Proof.
  unfold sleepFor.
  destruct (30 * Second <? toDuration T (backoff bd i * jitter u)) eqn:E.
  - lia.
  - apply Z.ltb_ge in E; exact E.
Qed.

(** X1. Whatever [kuma.New] answers, a run of [newClientDirect] (with
    [maxRetries = N]) returns after [k + 1] calls of [kuma.New] and [k]
    sleeps for some [k <= N]: [k] times a call, a draw, a line and a
    sleep, and then one last call.  It disconnects nothing and leaves the
    environment and the global pool alone. *)
Theorem newClientDirect_every_run
  (N : nat) (bd : Duration) (cfg : Config) (w : World) :
  exists r w' k errs,
    newClientDirectWith T N bd cfg w = Done r w' /\
    (k <= N)%nat /\
    events w' =
      events w ++ failedAttempts T N bd cfg errs (drawn (events w)) k
               ++ [Dialed (BaseURL cfg) (Username cfg) (Password cfg)] /\
    length (dialed (events w')) = (length (dialed (events w)) + (k + 1))%nat /\
    length (slept (events w')) = (length (slept (events w)) + k)%nat /\
    closed (events w') = closed (events w) /\
    environ w' = environ w /\ globalPool w' = globalPool w.
Proof.
  set (f := fun j => kumaNew T (length (dialed (events w)) + j)
                             (BaseURL cfg) (Username cfg) (Password cfg)).
  set (errs := fun j => errorOf (f j)).
  assert (Hlen : forall k,
    length (dialed (events w ++ failedAttempts T N bd cfg errs (drawn (events w)) k
                    ++ [Dialed (BaseURL cfg) (Username cfg) (Password cfg)])) =
    (length (dialed (events w)) + (k + 1))%nat /\
    length (slept (events w ++ failedAttempts T N bd cfg errs (drawn (events w)) k
                   ++ [Dialed (BaseURL cfg) (Username cfg) (Password cfg)])) =
    (length (slept (events w)) + k)%nat /\
    closed (events w ++ failedAttempts T N bd cfg errs (drawn (events w)) k
                   ++ [Dialed (BaseURL cfg) (Username cfg) (Password cfg)]) =
    closed (events w)).
  { intros k. rewrite dialed_run, slept_run.
    rewrite !length_app, repeat_length, length_map, length_seq.
    rewrite !closed_app, closed_failedAttempts; simpl.
    rewrite app_nil_r; auto. }
  destruct (first_answer f N) as [(k & s & Hk & Hf & Hs)|Hall].
  - pose proof (@retryLoop_succeeds T N bd cfg errs w k s Hk Hf Hs) as Hrun.
    eexists _, _, k, errs; split.
    { unfold newClientDirectWith.
      rewrite (@bind_Done _ _ _ _ _ _ _ Hrun); reflexivity. }
    split; [exact Hk|].
    split; [reflexivity|].
    simpl events; simpl environ; simpl globalPool.
    destruct (Hlen k) as (H1 & H2 & H3); auto 10.
  - pose proof (@retryLoop_exhausted T N bd cfg errs w Hall) as Hrun.
    eexists _, _, N, errs; split.
    { unfold newClientDirectWith.
      rewrite (@bind_Done _ _ _ _ _ _ _ Hrun); reflexivity. }
    split; [lia|].
    split; [reflexivity|].
    simpl events; simpl environ; simpl globalPool.
    destruct (Hlen N) as (H1 & H2 & H3); auto 10.
Qed.

(** X2. In every run of [newClientDirect] there are at most [maxRetries]
    sleeps and none of them is longer than 30 seconds, whatever the draws
    of [rand.Float64] and whatever the conversion to [time.Duration]
    gives. *)
Theorem newClientDirect_sleeps_capped
  (N : nat) (bd : Duration) (cfg : Config) (w : World) :
  exists r w' ds,
    newClientDirectWith T N bd cfg w = Done r w' /\
    slept (events w') = slept (events w) ++ ds /\
    (length ds <= N)%nat /\
    Forall (fun d => d <= 30 * Second) ds.
Proof.
  set (f := fun j => kumaNew T (length (dialed (events w)) + j)
                             (BaseURL cfg) (Username cfg) (Password cfg)).
  set (errs := fun j => errorOf (f j)).
  assert (Hcap : forall k,
    Forall (fun d => d <= 30 * Second)
           (map (sleepOf T bd (drawn (events w))) (seq 0 k))).
  { intros k; apply Forall_forall; intros d Hd.
    apply in_map_iff in Hd; destruct Hd as (j & <- & _).
    apply sleepFor_capped. }
  destruct (first_answer f N) as [(k & s & Hk & Hf & Hs)|Hall].
  - pose proof (@retryLoop_succeeds T N bd cfg errs w k s Hk Hf Hs) as Hrun.
    eexists _, _, _; split.
    { unfold newClientDirectWith.
      rewrite (@bind_Done _ _ _ _ _ _ _ Hrun); reflexivity. }
    simpl events. split; [apply slept_run|].
    rewrite length_map, length_seq; auto.
  - pose proof (@retryLoop_exhausted T N bd cfg errs w Hall) as Hrun.
    eexists _, _, _; split.
    { unfold newClientDirectWith.
      rewrite (@bind_Done _ _ _ _ _ _ _ Hrun); reflexivity. }
    simpl events. split; [apply slept_run|].
    rewrite length_map, length_seq; auto.
Qed.

End EveryRun.

Section Waiting.

Variable T : Transport.




End Waiting.

(** * Further properties of the pool *)

Section PoolUse.

Variable T : Transport.

Lemma pool_eta (p : Pool) : mkPool (client p) (config p) (refs p) = p.
Proof. destruct p; reflexivity. Qed.

Lemma configMatches_same (p : Pool) (cfg : Config) :
  config p = Some cfg -> configMatches p cfg = true.
Proof.
  intros H; apply (configMatches_iff p cfg H); auto.
Qed.

(** The run of [GetOrCreate] on a pool that holds a client with the
    requested credentials. *)
Lemma GetOrCreate_held (p : Pool) (c : Client) (cfg : Config) (w : World) :
  client p = Some c -> configMatches p cfg = true ->
  GetOrCreate T p cfg w =
  Done ((Some c, None), mkPool (Some c) (config p) (wrapInt (refs p + 1))) w.
Proof.
  intros Hcl Hm; unfold GetOrCreate; rewrite Hcl, Hm; reflexivity.
Qed.

(** X4. A pool that the methods have produced from [&Pool{}] is either
    as [&Pool{}] (no client, no config, [refs = 0]) or holds a client with
    a session together with the config it was made from. *)
Theorem reachable_pool_shape (p : Pool) :
  reachable T p ->
  (client p = None /\ config p = None /\ refs p = 0) \/
  (exists c k pc, client p = Some c /\ Kuma c = Some k /\ config p = Some pc).
Proof.
  intros H; apply reachable_wellFormed in H; unfold wellFormed in H.
  destruct (client p) as [c|] eqn:Hcl.
  - destruct H as [[pc Hpc] [k Hk]]; right; exists c, k, pc; auto.
  - left; subst p; auto.
Qed.

(** X5. On such a pool [GetOrCreate] does not run into the [nil]
    dereference of [p.config]: it returns, with a client that has a
    session and no error, or with an error and no client. *)
Theorem GetOrCreate_returns (p : Pool) (cfg : Config) (w : World) :
  reachable T p ->
  exists r p' w',
    GetOrCreate T p cfg w = Done (r, p') w' /\
    ((exists c k, r = (Some c, None) /\ Kuma c = Some k) \/
     (exists e, r = (None, Some e))).
Proof.
  intros H; apply reachable_wellFormed in H; unfold wellFormed in H.
  destruct (client p) as [c|] eqn:Hcl.
  - destruct H as [[pc Hpc] [k Hk]].
    destruct (configMatches p cfg) eqn:Hm.
    + rewrite (GetOrCreate_held p cfg w Hcl Hm).
      eexists _, _, _; split; [reflexivity|]. left; eauto.
    + unfold GetOrCreate; rewrite Hcl, Hm, Hpc; simpl.
      eexists _, _, _; split; [reflexivity|]. right; eauto.
  - unfold GetOrCreate; rewrite Hcl.
    destruct (newClientDirect_returns T cfg w)
      as (r & w' & n & Hrun & Hr & _).
    rewrite (@bind_Done _ _ _ _ _ _ _ Hrun).
    destruct Hr as [[c ->]|[e ->]].
    + destruct (@newClientDirect_client T _ _ _ _ Hrun) as (c' & k & Hc & Hk).
      inversion Hc; subst c'.
      eexists _, _, _; split; [reflexivity|]. left; eauto.
    + eexists _, _, _; split; [reflexivity|]. right; eauto.
Qed.

(** X6. An acquire that reuses the held client, followed by a release,
    leaves the pool exactly as it was, for a count that is not negative
    and below the largest [int]. *)
Theorem GetOrCreate_then_Release (p : Pool) (c : Client) (cfg : Config) (w : World) :
  client p = Some c ->
  configMatches p cfg = true ->
  0 <= refs p < maxInt ->
  exists p1,
    GetOrCreate T p cfg w = Done ((Some c, None), p1) w /\
    Release p1 w = Done (tt, p) w.
Proof.
  intros Hcl Hm Hr.
  eexists; split; [apply GetOrCreate_held; assumption|].
  unfold Release; simpl.
  rewrite wrapInt_in_range by (unfold minInt, maxInt in *; lia).
  replace (0 <? refs p + 1) with true by (symmetry; apply Z.ltb_lt; lia).
  replace (refs p + 1 - 1) with (refs p) by lia.
  rewrite <- Hcl, pool_eta; reflexivity.
Qed.

(** X7. [n] acquires with the credentials of the held client return that
    client [n] times and add [n] to the count, without any call that
    leaves the package, as long as the count stays an [int]. *)
Theorem GetOrCreate_times (n : nat) :
  forall (p : Pool) (c : Client) (cfg : Config) (w : World),
    client p = Some c ->
    configMatches p cfg = true ->
    minInt <= refs p ->
    refs p + Z.of_nat n <= maxInt ->
    calls n (fun q => GetOrCreate T q cfg) p w =
    Done (repeat (Some c, None) n,
          mkPool (Some c) (config p) (refs p + Z.of_nat n)) w.
Proof.
  induction n as [|n IH]; intros p c cfg w Hcl Hm Hlo Hhi.
  - simpl. rewrite Z.add_0_r, <- Hcl, pool_eta; reflexivity.
  - cbn [calls].
    rewrite (@bind_Done _ _ _ _ _ _ _ (GetOrCreate_held p cfg w Hcl Hm)).
    cbn [snd fst].
    rewrite wrapInt_in_range by (unfold minInt, maxInt in *; lia).
    rewrite (@bind_Done _ _ _ _ _ _ _
               (IH (mkPool (Some c) (config p) (refs p + 1)) c cfg w
                   eq_refl
                   ltac:(unfold configMatches in *; exact Hm)
                   ltac:(simpl; lia) ltac:(simpl; lia))).
    simpl. unfold ret. do 3 f_equal. lia.
Qed.

(** X8. [n] acquires on the empty pool, when the first login succeeds:
    one call of [kuma.New], one client, returned [n] times, and a count of
    [n]. *)
Theorem GetOrCreate_times_from_empty
  (n : nat) (cfg : Config) (s : KumaClient) (w : World) :
  kumaNew T (length (dialed (events w)))
          (BaseURL cfg) (Username cfg) (Password cfg) = inl s ->
  Z.of_nat n < maxInt ->
  let c := mkClient (allocated w) (Some s) in
  calls (S n) (fun q => GetOrCreate T q cfg) emptyPool w =
  Done (repeat (Some c, None) (S n),
        mkPool (Some c) (Some cfg) (Z.of_nat (S n)))
       (setAllocated (S (allocated w))
          (extend [Dialed (BaseURL cfg) (Username cfg) (Password cfg)] w)).
Proof.
  intros Hok Hn c.
  assert (Hnew : newClientDirect T cfg w =
                 Done (Some c, None)
                      (setAllocated (S (allocated w))
                         (extend [Dialed (BaseURL cfg) (Username cfg) (Password cfg)] w))).
  { unfold newClientDirect, newClientDirectWith.
    change (seq 0 6) with (0%nat :: seq 1 5).
    unfold bind at 1. rewrite retryLoop_cons, Hok. reflexivity. }
  assert (Hfirst : GetOrCreate T emptyPool cfg w =
                   Done ((Some c, None), mkPool (Some c) (Some cfg) 1)
                        (setAllocated (S (allocated w))
                           (extend [Dialed (BaseURL cfg) (Username cfg) (Password cfg)] w))).
  { unfold GetOrCreate, emptyPool; cbn [client].
    rewrite (@bind_Done _ _ _ _ _ _ _ Hnew). reflexivity. }
  cbn [calls].
  rewrite (@bind_Done _ _ _ _ _ _ _ Hfirst). cbn [snd fst].
  rewrite (@bind_Done _ _ _ _ _ _ _
             (@GetOrCreate_times n (mkPool (Some c) (Some cfg) 1) c cfg _
                 eq_refl
                 (@configMatches_same (mkPool (Some c) (Some cfg) 1) cfg eq_refl)
                 ltac:(unfold minInt; simpl; lia)
                 ltac:(simpl refs; lia))).
  cbn [fst snd repeat refs config]. unfold ret.
  replace (1 + Z.of_nat n) with (Z.of_nat (S n)) by lia.
  reflexivity.
Qed.

(** X9. [n] releases take [n] from a count that is not negative, but not
    below 0; the client and the config stay and nothing is closed. *)
Theorem Release_times (n : nat) :
  forall (p : Pool) (w : World),
    0 <= refs p ->
    calls n Release p w =
    Done (repeat tt n,
          mkPool (client p) (config p) (Z.max 0 (refs p - Z.of_nat n))) w.
Proof.
  induction n as [|n IH]; intros p w Hr.
  - simpl. rewrite Z.sub_0_r, Z.max_r by lia. rewrite pool_eta; reflexivity.
  - cbn [calls]. unfold Release at 1.
    destruct (0 <? refs p) eqn:E.
    + apply Z.ltb_lt in E.
      rewrite bind_ret. cbn [snd fst].
      rewrite (@bind_Done _ _ _ _ _ _ _
                 (IH (mkPool (client p) (config p) (refs p - 1)) w
                     ltac:(simpl; lia))).
      simpl. unfold ret. do 3 f_equal. lia.
    + apply Z.ltb_ge in E.
      rewrite bind_ret. cbn [snd fst].
      rewrite (@bind_Done _ _ _ _ _ _ _ (IH p w Hr)).
      simpl. unfold ret. do 3 f_equal. lia.
Qed.

(** X10. A second [Close] right after a [Close] finds no client: it
    returns [nil], calls nothing and changes nothing. *)
Theorem Close_twice (p : Pool) (w : World) :
  exists err p1 w1,
    Close T p w = Done (err, p1) w1 /\
    client p1 = None /\
    Close T p1 w1 = Done (None, p1) w1.
Proof.
  unfold Close at 1.
  destruct (client p) as [c|] eqn:Hcl.
  - unfold Disconnect, bind.
    destruct (Kuma c) as [k|]; eexists _, _, _; repeat split.
  - exists None, p, w; repeat split; auto.
    unfold Close; rewrite Hcl; reflexivity.
Qed.

End PoolUse.

(** * Further properties of [New] and of the global pool *)

Section GlobalPool.

Variable T : Transport.

Let poolVar : string := "UPTIMEKUMA_ENABLE_CONNECTION_POOL".

(** Pooling is on for a config in a world. *)
Let pooled (cfg : Config) (w : World) : Prop :=
  EnableConnectionPool cfg = true \/ environ w poolVar = "true"%string.

Lemma world_eta (w : World) : setGlobalPool (globalPool w) w = w.
Proof. destruct w; reflexivity. Qed.

Lemma New_pooled (cfg : Config) (w : World) :
  BaseURL cfg <> EmptyString -> pooled cfg w ->
  New T cfg w = onGlobalPool (fun pool => GetOrCreate T pool cfg) w.
Proof.
  intros HB Hp.
  unfold New, poolEnabled.
  replace (BaseURL cfg =? "")%string with false
    by (symmetry; apply String.eqb_neq; exact HB).
  unfold pooled, poolVar in Hp.
  destruct (EnableConnectionPool cfg) eqn:Hf; [reflexivity|].
  destruct Hp as [Hp|Hp]; [discriminate|].
  simpl negb; cbv iota. unfold bind at 1, bind at 1, os_Getenv, ret.
  rewrite Hp. reflexivity.
Qed.

Lemma New_direct (cfg : Config) (w : World) :
  BaseURL cfg <> EmptyString ->
  EnableConnectionPool cfg = false -> environ w poolVar <> "true"%string ->
  New T cfg w = newClientDirect T cfg w.
Proof.
  intros HB Hf Hv.
  unfold New, poolEnabled.
  replace (BaseURL cfg =? "")%string with false
    by (symmetry; apply String.eqb_neq; exact HB).
  rewrite Hf. simpl negb; cbv iota.
  unfold bind at 1, bind at 1, os_Getenv, ret.
  unfold poolVar in Hv. apply String.eqb_neq in Hv. rewrite Hv. reflexivity.
Qed.

(** [New] returns a client only for a config with a URL. *)
Lemma New_client_URL (cfg : Config) (w w' : World) (c : Client) :
  New T cfg w = Done (Some c, None) w' -> BaseURL cfg <> EmptyString.
Proof.
  unfold New. destruct (BaseURL cfg =? "")%string eqn:E.
  - discriminate.
  - intros _. apply String.eqb_neq; exact E.
Qed.

(** A method on the global pool that is there already. *)
Lemma onGlobalPool_Some (A : Type) (method : Pool -> M (A * Pool))
      (w w' : World) (p p' : Pool) (a : A) :
  globalPool w = Some p ->
  method p w = Done (a, p') w' ->
  onGlobalPool method w = Done a (setGlobalPool (Some p') w').
Proof.
  intros Hg Hm. unfold onGlobalPool, bind, GetGlobalPool.
  rewrite Hg, Hm. reflexivity.
Qed.

(** A method on the global pool that is made by this call. *)
Lemma onGlobalPool_None (A : Type) (method : Pool -> M (A * Pool))
      (w w' : World) (p' : Pool) (a : A) :
  globalPool w = None ->
  method emptyPool (setGlobalPool (Some emptyPool) w) = Done (a, p') w' ->
  onGlobalPool method w = Done a (setGlobalPool (Some p') w').
Proof.
  intros Hg Hm. unfold onGlobalPool, bind, GetGlobalPool.
  rewrite Hg, Hm. reflexivity.
Qed.

(** What a run of the global pool's method was. *)
Lemma onGlobalPool_inv (A : Type) (method : Pool -> M (A * Pool))
      (w w1 : World) (a : A) :
  onGlobalPool method w = Done a w1 ->
  exists p0 w0 p1 w1',
    method p0 w0 = Done (a, p1) w1' /\
    w1 = setGlobalPool (Some p1) w1' /\
    events w0 = events w /\ environ w0 = environ w /\
    allocated w0 = allocated w.
Proof.
  unfold onGlobalPool, bind, GetGlobalPool.
  destruct (globalPool w) as [p|].
  - destruct (method p w) as [[a' p1] w1'|msg w1'] eqn:E; [|discriminate].
    intros H; inversion H; subst.
    exists p, w, p1, w1'; auto.
  - destruct (method emptyPool (setGlobalPool (Some emptyPool) w))
      as [[a' p1] w1'|msg w1'] eqn:E; [|discriminate].
    intros H; inversion H; subst.
    eexists _, _, p1, w1'; split; [exact E|]; auto.
Qed.

(** The retry loop leaves the environment alone. *)
Lemma retryLoop_environ (N : nat) (bd : Duration) (cfg : Config) (todo : list nat) :
  forall (err : option error) (w w' : World) (x : LoopExit),
    retryLoop T N bd cfg todo err w = Done x w' -> environ w' = environ w.
Proof.
  induction todo as [|i todo IH]; intros err w w' x.
  - simpl; unfold ret; intros H; inversion H; reflexivity.
  - rewrite retryLoop_cons.
    destruct (kumaNew T _ _ _ _) as [k|e].
    + intros H; inversion H; reflexivity.
    + destruct (i =? N)%nat.
      * intros H; inversion H; reflexivity.
      * intros H; apply IH in H; exact H.
Qed.

Lemma GetOrCreate_environ (p p' : Pool) (cfg : Config) (w w' : World)
      (r : option Client * option error) :
  GetOrCreate T p cfg w = Done (r, p') w' -> environ w' = environ w.
Proof.
  unfold GetOrCreate.
  destruct (client p) as [c|].
  - destruct (negb (configMatches p cfg)).
    + destruct (config p); [|discriminate].
      intros H; inversion H; reflexivity.
    + intros H; inversion H; reflexivity.
  - unfold bind, newClientDirect, newClientDirectWith, bind.
    destruct (retryLoop T 5 (5 * Second) cfg (seq 0 6) None w)
      as [x w1|msg w1] eqn:E; [|discriminate].
    apply retryLoop_environ in E.
    destruct x as [c|err]; simpl; intros H; inversion H; subst; exact E.
Qed.

(** After an acquire that returned a client, the pool holds that client
    and the credentials of the request. *)
Lemma GetOrCreate_client_state (p p' : Pool) (cfg : Config) (w w' : World)
      (c : Client) :
  GetOrCreate T p cfg w = Done ((Some c, None), p') w' ->
  client p' = Some c /\ configMatches p' cfg = true.
Proof.
  unfold GetOrCreate.
  destruct (client p) as [c0|] eqn:Hcl.
  - destruct (configMatches p cfg) eqn:Hm; simpl.
    + intros H; inversion H; subst; simpl. split; [reflexivity|].
      unfold configMatches in *; exact Hm.
    + destruct (config p); [|discriminate]. discriminate.
  - unfold bind.
    destruct (newClientDirect T cfg w) as [[c' [e|]] w1|msg w1];
      try discriminate.
    intros H; inversion H; subst; simpl. split; [reflexivity|].
    apply configMatches_same; reflexivity.
Qed.

Lemma configMatches_credentials (p : Pool) (cfg cfg2 : Config) :
  credentials cfg2 = credentials cfg ->
  configMatches p cfg2 = configMatches p cfg.
Proof.
  unfold credentials, configMatches; intros H; inversion H as [[H1 H2 H3]].
  rewrite H1, H2, H3; reflexivity.
Qed.

(** X11. With pooling on, a [New] that follows a [New] that returned a
    client, with the same address, user and password, returns that very
    client and makes no call that leaves the package: no login, no new
    [Client]. *)
Theorem New_pooled_twice (cfg cfg2 : Config) (c : Client) (w w1 : World) :
  pooled cfg w -> pooled cfg2 w ->
  credentials cfg2 = credentials cfg ->
  New T cfg w = Done (Some c, None) w1 ->
  exists w2,
    New T cfg2 w1 = Done (Some c, None) w2 /\
    events w2 = events w1 /\ allocated w2 = allocated w1.
Proof.
  intros Hp Hp2 Hcr Hrun.
  pose proof (@New_client_URL _ _ _ _ Hrun) as HB.
  assert (HB2 : BaseURL cfg2 <> EmptyString).
  { unfold credentials in Hcr; inversion Hcr as [[H1 H2 H3]]; rewrite H1; exact HB. }
  rewrite (@New_pooled cfg w HB Hp) in Hrun.
  apply onGlobalPool_inv in Hrun.
  destruct Hrun as (p0 & w0 & p1 & w1' & Hm & -> & _ & Henv & _).
  pose proof (@GetOrCreate_environ _ _ _ _ _ _ Hm) as Henv'.
  destruct (@GetOrCreate_client_state _ _ _ _ _ _ Hm) as [Hcl Hmatch].
  assert (Hp2' : pooled cfg2 (setGlobalPool (Some p1) w1')).
  { destruct Hp2 as [Hf|Hv]; [left; exact Hf|right].
    simpl environ. rewrite Henv', Henv; exact Hv. }
  rewrite (@New_pooled cfg2 _ HB2 Hp2').
  rewrite <- (@configMatches_credentials p1 cfg cfg2 Hcr) in Hmatch.
  eexists; split.
  - apply onGlobalPool_Some with (p := p1); [reflexivity|].
    apply GetOrCreate_held; assumption.
  - split; reflexivity.
Qed.

(** X12. With pooling on, a [New] that follows a [New] that returned a
    client, but with another address, user or password, returns the
    mismatch error with both URLs; it makes no call that leaves the
    package and the global pool keeps the client and its count. *)
Theorem New_pooled_mismatch (cfg cfg2 : Config) (c : Client) (w w1 : World) :
  pooled cfg w -> pooled cfg2 w ->
  BaseURL cfg2 <> EmptyString ->
  credentials cfg2 <> credentials cfg ->
  New T cfg w = Done (Some c, None) w1 ->
  exists e w2 p1,
    New T cfg2 w1 = Done (None, Some e) w2 /\
    ConfigMismatchError (BaseURL cfg) (BaseURL cfg2) e /\
    events w2 = events w1 /\
    globalPool w1 = Some p1 /\ globalPool w2 = Some p1 /\ client p1 = Some c.
Proof.
  intros Hp Hp2 HB2 Hcr Hrun.
  pose proof (@New_client_URL _ _ _ _ Hrun) as HB.
  rewrite (@New_pooled cfg w HB Hp) in Hrun.
  apply onGlobalPool_inv in Hrun.
  destruct Hrun as (p0 & w0 & p1 & w1' & Hm & -> & _ & Henv & _).
  pose proof (@GetOrCreate_environ _ _ _ _ _ _ Hm) as Henv'.
  destruct (@GetOrCreate_client_state _ _ _ _ _ _ Hm) as [Hcl Hmatch].
  assert (Hp2' : pooled cfg2 (setGlobalPool (Some p1) w1')).
  { destruct Hp2 as [Hf|Hv]; [left; exact Hf|right].
    simpl environ. rewrite Henv', Henv; exact Hv. }
  rewrite (@New_pooled cfg2 _ HB2 Hp2').
  destruct (config p1) as [pc|] eqn:Hpc;
    [|rewrite (configMatches_nil p1 cfg Hpc) in Hmatch; discriminate].
  apply (configMatches_iff p1 cfg Hpc) in Hmatch.
  destruct Hmatch as (H1 & H2 & H3).
  assert (Hno : configMatches p1 cfg2 = false).
  { destruct (configMatches p1 cfg2) eqn:E; [|reflexivity].
    apply (configMatches_iff p1 cfg2 Hpc) in E.
    destruct E as (E1 & E2 & E3).
    exfalso; apply Hcr; unfold credentials; congruence. }
  eexists _, _, p1; split.
  - apply onGlobalPool_Some with (p := p1); [reflexivity|].
    unfold GetOrCreate; rewrite Hcl, Hno, Hpc; reflexivity.
  - split.
    { split; [reflexivity|].
      rewrite Error_Errorf; unfold Sprint, render.
      rewrite append_empty, H1; reflexivity. }
    repeat split; auto.
Qed.

End GlobalPool.

(** * The life of a connection *)

Section Lifecycle.

Variable T : Transport.
Variable cfg : Config.

Let call : Event := Dialed (BaseURL cfg) (Username cfg) (Password cfg).

(** A login that succeeds at once. *)
Lemma newClientDirect_at_once (s : KumaClient) (w : World) :
  kumaNew T (length (dialed (events w)))
          (BaseURL cfg) (Username cfg) (Password cfg) = inl s ->
  newClientDirect T cfg w =
  Done (Some (mkClient (allocated w) (Some s)), None)
       (setAllocated (S (allocated w)) (extend [call] w)).
Proof.
  intros Hok.
  unfold newClientDirect, newClientDirectWith.
  change (seq 0 6) with (0%nat :: seq 1 5).
  unfold bind at 1. rewrite retryLoop_cons, Hok. reflexivity.
Qed.

Lemma GetOrCreate_at_once (s : KumaClient) (w : World) :
  kumaNew T (length (dialed (events w)))
          (BaseURL cfg) (Username cfg) (Password cfg) = inl s ->
  GetOrCreate T emptyPool cfg w =
  Done ((Some (mkClient (allocated w) (Some s)), None),
        mkPool (Some (mkClient (allocated w) (Some s))) (Some cfg) 1)
       (setAllocated (S (allocated w)) (extend [call] w)).
Proof.
  intros Hok.
  unfold GetOrCreate, emptyPool; cbn [client].
  rewrite (@bind_Done _ _ _ _ _ _ _ (newClientDirect_at_once w Hok)).
  reflexivity.
Qed.

(** [n] pooled calls of [New] on a global pool that holds a client with
    the credentials of the config. *)
Lemma New_times_held (c : Client) (n : nat) :
  forall (w : World) (p : Pool),
    globalPool w = Some p ->
    client p = Some c ->
    configMatches p cfg = true ->
    BaseURL cfg <> EmptyString ->
    EnableConnectionPool cfg = true \/
      environ w "UPTIMEKUMA_ENABLE_CONNECTION_POOL" = "true"%string ->
    minInt <= refs p ->
    refs p + Z.of_nat n <= maxInt ->
    times n (New T cfg) w =
    Done (repeat (Some c, None) n)
         (setGlobalPool
            (Some (mkPool (Some c) (config p) (refs p + Z.of_nat n))) w).
Proof.
  induction n as [|n IH]; intros w p Hg Hcl Hm HB Hp Hlo Hhi.
  - simpl. rewrite Z.add_0_r, <- Hcl, pool_eta, <- Hg, world_eta.
    reflexivity.
  - cbn [times].
    assert (Hnew : New T cfg w =
                   Done (Some c, None)
                        (setGlobalPool
                           (Some (mkPool (Some c) (config p) (refs p + 1))) w)).
    { rewrite (@New_pooled T cfg w HB Hp).
      apply onGlobalPool_Some with (p := p); [exact Hg|].
      rewrite (@GetOrCreate_held T p c cfg w Hcl Hm).
      rewrite wrapInt_in_range by (unfold minInt, maxInt in *; lia).
      reflexivity. }
    rewrite (@bind_Done _ _ _ _ _ _ _ Hnew).
    rewrite (@bind_Done _ _ _ _ _ _ _
               (IH (setGlobalPool
                      (Some (mkPool (Some c) (config p) (refs p + 1))) w)
                   (mkPool (Some c) (config p) (refs p + 1))
                   eq_refl eq_refl
                   ltac:(unfold configMatches in *; exact Hm)
                   HB Hp ltac:(simpl; lia) ltac:(simpl; lia))).
    unfold ret, setGlobalPool; simpl.
    do 4 f_equal. lia.
Qed.

(** X13. A run of the acceptance tests in a process that has not used the
    pool: with the variable set as [TestMain] sets it, [n + 1] calls of
    [New] with one config, whatever its [EnableConnectionPool], log in
    once and all return the one client; [CloseGlobalPool] then disconnects
    that session, once, returns what the library returned, and leaves the
    global pool empty. *)
Theorem testRun_one_connection (n : nat) (s : KumaClient) (w : World) :
  globalPool w = None ->
  BaseURL cfg <> EmptyString ->
  kumaNew T (length (dialed (events w)))
          (BaseURL cfg) (Username cfg) (Password cfg) = inl s ->
  Z.of_nat n < maxInt ->
  let c := mkClient (allocated w) (Some s) in
  exists w',
    testRun T (S n) cfg w =
    Done (repeat (Some c, None) (S n),
          kumaDisconnect T (length (closed (events w))) s) w' /\
    events w' = events w ++ [call; Disconnected s] /\
    globalPool w' = Some emptyPool.
Proof.
  intros Hg HB Hok Hn c.
  unfold testRun.
  unfold bind at 1, os_Setenv.
  set (w0 := mkWorld _ (events w) (allocated w) (globalPool w)).
  assert (Hp : EnableConnectionPool cfg = true \/
               environ w0 "UPTIMEKUMA_ENABLE_CONNECTION_POOL" = "true"%string)
    by (right; reflexivity).
  assert (Hfirst : New T cfg w0 =
                   Done (Some c, None)
                        (setGlobalPool (Some (mkPool (Some c) (Some cfg) 1))
                           (setAllocated (S (allocated w))
                              (extend [call] (setGlobalPool (Some emptyPool) w0))))).
  { rewrite (@New_pooled T cfg w0 HB Hp).
    apply onGlobalPool_None; [exact Hg|].
    apply (@GetOrCreate_at_once s (setGlobalPool (Some emptyPool) w0)).
    exact Hok. }
  cbn [times].
  unfold bind at 1, bind at 1. rewrite Hfirst.
  set (w1 := setGlobalPool (Some (mkPool (Some c) (Some cfg) 1))
               (setAllocated (S (allocated w))
                  (extend [call] (setGlobalPool (Some emptyPool) w0)))).
  pose proof (@New_times_held c n w1 (mkPool (Some c) (Some cfg) 1)
                eq_refl eq_refl
                (@configMatches_same (mkPool (Some c) (Some cfg) 1) cfg eq_refl)
                HB (or_intror eq_refl)
                ltac:(unfold minInt; simpl; lia)
                ltac:(simpl refs; lia)) as Hrest.
  rewrite (@bind_Done _ _ _ _ _ _ _ Hrest).
  unfold ret at 1.
  unfold bind at 1, CloseGlobalPool, Close, Disconnect, kuma_Disconnect, bind;
    simpl.
  rewrite closed_app; simpl. rewrite app_nil_r.
  eexists; split; [reflexivity|]; simpl.
  rewrite <- app_assoc; split; reflexivity.
Qed.

(** X14. Without pooling every [New] logs in for itself: two calls with
    one config make two calls of [kuma.New] and return two clients, each
    with its own session; the global pool is not touched. *)
Theorem New_direct_twice (s1 s2 : KumaClient) (w : World) :
  BaseURL cfg <> EmptyString ->
  EnableConnectionPool cfg = false ->
  environ w "UPTIMEKUMA_ENABLE_CONNECTION_POOL" <> "true"%string ->
  kumaNew T (length (dialed (events w)))
          (BaseURL cfg) (Username cfg) (Password cfg) = inl s1 ->
  kumaNew T (length (dialed (events w)) + 1)
          (BaseURL cfg) (Username cfg) (Password cfg) = inl s2 ->
  exists c1 c2 w1 w2,
    New T cfg w = Done (Some c1, None) w1 /\
    New T cfg w1 = Done (Some c2, None) w2 /\
    addr c1 <> addr c2 /\
    Kuma c1 = Some s1 /\ Kuma c2 = Some s2 /\
    events w2 = events w ++ [call; call] /\
    globalPool w2 = globalPool w.
Proof.
  intros HB Hf Hv H1 H2.
  eexists _, _, _, _; split.
  { rewrite (@New_direct T cfg w HB Hf Hv).
    apply newClientDirect_at_once; exact H1. }
  split.
  { rewrite New_direct; auto.
    apply newClientDirect_at_once.
    simpl. rewrite dialed_app, length_app; simpl. exact H2. }
  simpl. rewrite <- app_assoc.
  repeat split; auto.
Qed.

End Lifecycle.

(** * Properties of the token client *)

Section AuthProperties.

Import Auth.
Local Open Scope auth_scope.

Variable N : Net.

Lemma seq_Ok (A B : Type) (m : Run A) (f : A -> Run B) (w w' : Auth.World) (a : A) :
  m w = Ok a w' -> seq_ m f w = f a w'.
Proof. unfold seq_; intros ->; reflexivity. Qed.

Lemma Contains_app (p s sub : string) :
  Contains s sub = true -> Contains (p ++ s) sub = true.
Proof.
  intros H; induction p as [|ch p IH]; simpl; [exact H|].
  rewrite IH. apply orb_true_r.
Qed.

Lemma statusError_400 (body : string) :
  Contains (Error (statusError (mkResponse 400 body))) "400" = true.
Proof.
  unfold statusError; rewrite Error_Errorf.
  change (Sprint [Lit "authentication failed with status code ";
                  VerbD (StatusCode (mkResponse 400 body)); Lit ": ";
                  VerbS (ResponseBody (mkResponse 400 body))])
    with ("authentication failed with status code " ++ ("400" ++ (": " ++ (body ++ ""))))%string.
  apply Contains_app. reflexivity.
Qed.

Lemma clockReads_app (l1 l2 : list Event) :
  clockReads (l1 ++ l2) = (clockReads l1 + clockReads l2)%nat.
Proof.
  induction l1 as [|e l1 IH]; simpl; [reflexivity|].
  destruct e; simpl; rewrite IH; reflexivity.
Qed.

Lemma requests_app (l1 l2 : list Event) :
  requests (l1 ++ l2) = requests l1 ++ requests l2.
Proof.
  induction l1 as [|e l1 IH]; simpl; [reflexivity|].
  destruct e; simpl; rewrite IH; reflexivity.
Qed.

Lemma waits_app (l1 l2 : list Event) : waits (l1 ++ l2) = waits l1 ++ waits l2.
Proof.
  induction l1 as [|e l1 IH]; simpl; [reflexivity|].
  destruct e; simpl; rewrite IH; reflexivity.
Qed.

Lemma trips_app (l1 l2 : list Event) : trips (l1 ++ l2) = trips l1 ++ trips l2.
Proof.
  induction l1 as [|e l1 IH]; simpl; [reflexivity|].
  destruct e; simpl; rewrite IH; reflexivity.
Qed.

(** ** [doAuthenticate] *)

(** The two ways [doAuthenticate] returns: with a token that is not empty,
    stored with an expiry of 55 minutes from the reading of the clock
    after the request; or with an error and the empty string, the client
    as it was, after at most one request. *)
Lemma doAuthenticate_result (a : AuthClient) (c : HTTPClient) (w : Auth.World) :
  httpClient a = Some c ->
  exists r a' w',
    doAuthenticate N a w = Ok (r, a') w' /\
    ((exists tok,
        r = (tok, None) /\ tok <> EmptyString /\
        a' = setToken tok
               (Add (now N (clockReads w)) (55 * Minute)) a /\
        w' = w ++ [Sent c (authRequest N a); Clock]) \/
     (exists e,
        r = (EmptyString, Some e) /\ a' = a /\
        (w' = w \/ w' = w ++ [Sent c (authRequest N a)]))).
Proof.
  intros Hc. unfold doAuthenticate; rewrite Hc.
  destruct (requestError N "POST" (authURL a)) as [err|].
  { eexists _, _, _; split; [reflexivity|]. right; eauto. }
  unfold seq_ at 1, client_Do.
  destruct (clientDo N (length (requests w)) c (authRequest N a)) as [resp|err].
  2:{ eexists _, _, _; split; [reflexivity|]. right; eauto. }
  destruct (StatusCode resp =? 200); simpl negb; cbv iota.
  2:{ eexists _, _, _; split; [reflexivity|]. right; eauto. }
  destruct (Decode N (ResponseBody resp)) as [tr|err].
  2:{ eexists _, _, _; split; [reflexivity|]. right; eauto. }
  destruct (AccessToken tr =? "")%string eqn:E.
  { eexists _, _, _; split; [reflexivity|]. right; eauto. }
  apply String.eqb_neq in E.
  eexists _, _, _; split; [reflexivity|]. left.
  exists (AccessToken tr); repeat split; auto.
  - simpl. rewrite clockReads_app; simpl. rewrite Nat.add_0_r; reflexivity.
  - rewrite <- app_assoc; reflexivity.
Qed.

(** X15. [doAuthenticate] of a client with an HTTP client returns a token
    that is not empty and no error, having stored the token with an
    expiry of 55 minutes from the reading of the clock after the one
    request; or it returns an error and no token, and then the client is
    as it was and at most one request was sent. *)
Theorem doAuthenticate_token_or_error (a : AuthClient) (c : HTTPClient) (w : Auth.World) :
  httpClient a = Some c ->
  exists r a' w',
    doAuthenticate N a w = Ok (r, a') w' /\
    ((exists tok,
        r = (tok, None) /\ tok <> EmptyString /\
        token a' = tok /\
        tokenExpiry a' = Add (now N (clockReads w)) (55 * Minute) /\
        requests w' = requests w ++ [authRequest N a]) \/
     (exists e,
        r = (EmptyString, Some e) /\ a' = a /\
        (requests w' = requests w \/
         requests w' = requests w ++ [authRequest N a]))).
Proof.
  intros Hc.
  destruct (doAuthenticate_result a w Hc) as (r & a' & w' & Hrun & H).
  exists r, a', w'; split; [exact Hrun|].
  destruct H as [(tok & -> & Hne & -> & ->)|(e & -> & -> & Hw)].
  - left; exists tok; repeat split; auto.
    rewrite requests_app; reflexivity.
  - right; exists e; repeat split; auto.
    destruct Hw as [->| ->]; [left; reflexivity|right].
    rewrite requests_app; reflexivity.
Qed.

(** ** [GetToken] *)

Lemma GetToken_fresh (a : AuthClient) (w : Auth.World) :
  token a <> EmptyString ->
  now N (clockReads w) + 5 * Minute <= tokenExpiry a ->
  GetToken N a w = Ok ((token a, None), a) (w ++ [Clock]).
Proof.
  intros Ht He. unfold GetToken.
  replace (token a =? "")%string with false
    by (symmetry; apply String.eqb_neq; exact Ht).
  unfold seq_, time_Now, unit_, After, Add.
  replace (tokenExpiry a <? now N (clockReads w) + 5 * Minute) with false
    by (symmetry; apply Z.ltb_ge; exact He).
  reflexivity.
Qed.

(** X16. [GetToken] with a stored token whose expiry is at least five
    minutes after the reading of the clock returns that token: no wait and
    no request, and the client is as it was. *)
Theorem GetToken_cached (a : AuthClient) (w : Auth.World) :
  token a <> EmptyString ->
  now N (clockReads w) + 5 * Minute <= tokenExpiry a ->
  GetToken N a w = Ok ((token a, None), a) (w ++ [Clock]) /\
  requests (w ++ [Clock]) = requests w /\ waits (w ++ [Clock]) = waits w.
Proof.
  intros Ht He; split; [apply GetToken_fresh; assumption|].
  rewrite requests_app, waits_app; simpl; rewrite !app_nil_r; auto.
Qed.

(** X17. A token that [doAuthenticate] has stored is served by [GetToken]
    for 50 minutes: up to a reading of the clock 50 minutes after the one
    at which it was stored, [GetToken] returns it without a request. *)
Theorem token_lifetime (a a' : AuthClient) (c : HTTPClient) (tok : string)
        (w w' w2 : Auth.World) :
  httpClient a = Some c ->
  doAuthenticate N a w = Ok ((tok, None), a') w' ->
  now N (clockReads w2) <= now N (clockReads w) + 50 * Minute ->
  GetToken N a' w2 = Ok ((tok, None), a') (w2 ++ [Clock]).
Proof.
  intros Hc Hrun Hlate.
  destruct (doAuthenticate_result a w Hc) as (r & a1 & w1 & Hrun' & H).
  rewrite Hrun in Hrun'; inversion Hrun'; subst r a1 w1.
  destruct H as [(tok' & Heq & Hne & -> & _)|(e & Heq & _)];
    [|discriminate].
  inversion Heq; subst tok'.
  pose proof (@GetToken_fresh (setToken tok (Add (now N (clockReads w)) (55 * Minute)) a) w2) as G.
  simpl token in G; simpl tokenExpiry in G.
  apply G; [exact Hne|].
  unfold Add, Minute, Second in *; lia.
Qed.

End AuthProperties.

Section AuthRetry.

Import Auth.
Local Open Scope auth_scope.

Variable N : Net.

Lemma sameSettings_refl (a : AuthClient) : sameSettings a a.
Proof. unfold sameSettings; auto 10. Qed.

Lemma sameSettings_trans (a b c : AuthClient) :
  sameSettings a b -> sameSettings b c -> sameSettings a c.
Proof.
  unfold sameSettings; intros (A1 & A2 & A3 & A4 & A5 & A6 & A7)
                              (B1 & B2 & B3 & B4 & B5 & B6 & B7).
  repeat split; congruence.
Qed.

(** Every run of the loop of [refreshToken]: it returns, keeps the
    settings, sends at most one request for each turn, and leaves a new
    token or the old one. *)
Lemma attemptLoop_shape (c : HTTPClient) (todo : list nat) :
  forall (lastErr : option error) (a : AuthClient) (w : Auth.World),
    httpClient a = Some c ->
    exists x a' w',
      attemptLoop N todo lastErr a w = Ok (x, a') w' /\
      sameSettings a a' /\
      (length (requests w') <= length (requests w) + length todo)%nat /\
      match x with
      | Left r => tokenOrError a a' r
      | Through _ => token a' = token a /\ tokenExpiry a' = tokenExpiry a
      end.
Proof.
  induction todo as [|attempt todo IH]; intros lastErr a w Hc.
  - eexists _, _, _; split; [reflexivity|].
    split; [apply sameSettings_refl|]. split; [lia|]. auto.
  - cbn [attemptLoop].
    assert (Hwait : exists cancelled w1,
      (if (0 <? attempt)%nat then wait N (backoffOf a attempt) else unit_ None) w
      = Ok cancelled w1 /\ requests w1 = requests w).
    { destruct (0 <? attempt)%nat.
      - unfold wait. destruct (ctxDone N (selects w) (backoffOf a attempt));
          eexists _, _; (split; [reflexivity|]);
          rewrite requests_app; simpl; apply app_nil_r.
      - eexists _, _; split; reflexivity. }
    destruct Hwait as (cancelled & w1 & Hw & Hr1).
    rewrite (@seq_Ok _ _ _ _ _ _ _ Hw).
    destruct cancelled as [e|].
    { eexists _, _, _; split; [reflexivity|].
      split; [apply sameSettings_refl|].
      split; [rewrite Hr1; lia|].
      right; exists e; auto. }
    unfold seq_ at 1, time_Now.
    set (a1 := setLastAuthAttempt (now N (clockReads w1)) a).
    assert (Hc1 : httpClient a1 = Some c) by exact Hc.
    destruct (doAuthenticate_result N a1 (w1 ++ [Clock]) Hc1)
      as (r & a2 & w2 & Hrun & Hres).
    rewrite (@seq_Ok _ _ _ _ _ _ _ Hrun). cbn [fst snd].
    assert (Hr2 : (length (requests w2) <= length (requests w) + 1)%nat).
    { destruct Hres as [(tok & _ & _ & _ & ->)|(e & _ & _ & [->| ->])];
        rewrite ?requests_app, ?length_app, Hr1; simpl; lia. }
    destruct Hres as [(tok & -> & Hne & -> & _)|(e & -> & -> & _)].
    + eexists _, _, _; split; [reflexivity|].
      split; [unfold sameSettings; simpl; auto 10|].
      split; [simpl; lia|].
      left; exists tok; auto.
    + cbn [fst snd].
      destruct (Contains (Error e) "400").
      * destruct (IH (Some e) a1 w2 Hc1) as (x & a' & w' & Hloop & Hs & Hn & Hx).
        exists x, a', w'; split; [exact Hloop|].
        split; [apply sameSettings_trans with a1; [unfold sameSettings; simpl; auto 10|exact Hs]|].
        split; [simpl; lia|].
        destruct x as [r|le]; [|exact Hx].
        destruct Hx as [Hx|(e' & He' & Ht & Hx)]; [left; exact Hx|].
        right; exists e'; auto.
      * eexists _, _, _; split; [reflexivity|].
        split; [unfold sameSettings; simpl; auto 10|].
        split; [simpl; lia|]. auto.
Qed.

(** Every run of [GetToken]. *)
Lemma GetToken_shape (a : AuthClient) (c : HTTPClient) (w : Auth.World) :
  httpClient a = Some c ->
  exists r a' w',
    GetToken N a w = Ok (r, a') w' /\
    sameSettings a a' /\
    tokenOrError a a' r /\
    (length (requests w') <=
     length (requests w) + Z.to_nat (maxRetries a + 1))%nat.
Proof.
  intros Hc.
  assert (Hrefresh : forall w0, requests w0 = requests w ->
    exists r a' w',
      refreshToken N a w0 = Ok (r, a') w' /\
      sameSettings a a' /\ tokenOrError a a' r /\
      (length (requests w') <=
       length (requests w) + Z.to_nat (maxRetries a + 1))%nat).
  { intros w0 Hw0. unfold refreshToken.
    assert (Hfresh : exists fresh w1,
      (if negb (token a =? "")%string
       then t <- time_Now N;; unit_ (Before (Add t (5 * Minute)) (tokenExpiry a))
       else unit_ false) w0 = Ok fresh w1 /\
      requests w1 = requests w /\ (fresh = true -> token a <> EmptyString)).
    { destruct (token a =? "")%string eqn:E; simpl negb; cbv iota.
      - eexists _, _; split; [reflexivity|]. split; [exact Hw0|discriminate].
      - eexists _, _; split; [reflexivity|].
        split; [rewrite requests_app, Hw0; simpl; apply app_nil_r|].
        intros _; apply String.eqb_neq; exact E. }
    destruct Hfresh as (fresh & w1 & Hf & Hr1 & Hne).
    rewrite (@seq_Ok _ _ _ _ _ _ _ Hf).
    destruct fresh.
    { eexists _, _, _; split; [reflexivity|].
      split; [apply sameSettings_refl|].
      split; [left; exists (token a); auto|]. rewrite Hr1; lia. }
    unfold seq_ at 1, time_Since, seq_ at 1, time_Now, unit_ at 1.
    set (since := Sub (now N (clockReads w1)) (lastAuthAttempt a)).
    assert (Hwait : exists cancelled w2,
      (if since <? minAuthInterval a
       then wait N (wrapInt (minAuthInterval a - since))
       else unit_ None) (w1 ++ [Clock]) = Ok cancelled w2 /\
      requests w2 = requests w).
    { destruct (since <? minAuthInterval a).
      - unfold wait.
        destruct (ctxDone N (selects (w1 ++ [Clock]))
                          (wrapInt (minAuthInterval a - since)));
          eexists _, _; (split; [reflexivity|]);
          rewrite !requests_app, Hr1; simpl; rewrite !app_nil_r; reflexivity.
      - eexists _, _; split; [reflexivity|].
        rewrite requests_app, Hr1; simpl; apply app_nil_r. }
    destruct Hwait as (cancelled & w2 & Hw & Hr2).
    rewrite (@seq_Ok _ _ _ _ _ _ _ Hw).
    destruct cancelled as [e|].
    { eexists _, _, _; split; [reflexivity|].
      split; [apply sameSettings_refl|].
      split; [right; exists e; auto|]. rewrite Hr2; lia. }
    destruct (@attemptLoop_shape c (seq 0 (Z.to_nat (maxRetries a + 1))) None a w2 Hc)
      as (x & a' & w' & Hloop & Hs & Hn & Hx).
    rewrite (@seq_Ok _ _ _ _ _ _ _ Hloop). cbn [fst snd].
    rewrite length_seq, Hr2 in Hn.
    destruct x as [r|le].
    - eexists _, _, _; split; [reflexivity|]. auto.
    - eexists _, _, _; split; [reflexivity|].
      split; [exact Hs|]. split; [|exact Hn].
      right; eexists; split; [reflexivity|exact Hx]. }
  unfold GetToken.
  destruct (token a =? "")%string eqn:E.
  - rewrite (@seq_Ok _ _ _ _ _ _ _ (eq_refl : unit_ true w = Ok true w)).
    apply Hrefresh; reflexivity.
  - unfold seq_ at 1, seq_ at 1, time_Now, unit_ at 1.
    destruct (After (Add (now N (clockReads w)) (5 * Minute)) (tokenExpiry a)).
    + apply Hrefresh. rewrite requests_app; simpl; apply app_nil_r.
    + eexists _, _, _; split; [reflexivity|].
      split; [apply sameSettings_refl|].
      split.
      * left; exists (token a); repeat split; auto.
        apply String.eqb_neq; exact E.
      * rewrite requests_app, length_app; simpl; lia.
Qed.

(** X18. [GetToken] of a client with an HTTP client returns, whatever the
    surroundings answer: with a token that is not empty, which is the
    stored one, and no error; or with an error and no token, the stored
    token and its expiry as before.  The settings of the client stay, and
    at most [maxRetries + 1] requests are sent ([maxRetries] below the
    largest [int]). *)
Theorem GetToken_token_or_error (a : AuthClient) (c : HTTPClient) (w : Auth.World) :
  httpClient a = Some c ->
  maxRetries a < maxInt ->
  exists r a' w',
    GetToken N a w = Ok (r, a') w' /\
    sameSettings a a' /\
    tokenOrError a a' r /\
    (length (requests w') <=
     length (requests w) + Z.to_nat (maxRetries a + 1))%nat.
Proof. intros Hc _; apply (@GetToken_shape a c w Hc). Qed.

(** X25. A client made by [NewAuthClient], with or without an HTTP client
    of the caller, has an HTTP client: [GetToken] on it returns a token or
    an error, and sends at most four requests. *)
Theorem NewAuthClient_GetToken
  (url user pass : string) (hc : option HTTPClient) (w : Auth.World) :
  let a := NewAuthClient url user pass hc in
  exists r a' w',
    GetToken N a w = Ok (r, a') w' /\
    tokenOrError a a' r /\
    (length (requests w') <= length (requests w) + 4)%nat /\
    (hc = None -> httpClient a = Some (mkHTTPClient nilTripper (30 * Second))).
Proof.
  intros a.
  assert (Hc : exists c, httpClient a = Some c)
    by (unfold a, NewAuthClient; simpl; eauto).
  destruct Hc as [c Hc].
  destruct (GetToken_shape a w Hc) as (r & a' & w' & Hrun & _ & Htok & Hn).
  exists r, a', w'; repeat split; auto.
  intros ->; reflexivity.
Qed.

End AuthRetry.

Section AuthRuns.

Import Auth.
Local Open Scope auth_scope.

Variable N : Net.
Variable a : AuthClient.
Variable c : HTTPClient.

Hypothesis has_client : httpClient a = Some c.
Hypothesis request_accepted : requestError N "POST" (authURL a) = None.

(** The request is answered with a status that is not 200. *)
Lemma doAuthenticate_status (resp : Response) (t : Time) (w : Auth.World) :
  clientDo N (length (requests w)) c (authRequest N a) = inl resp ->
  StatusCode resp <> 200 ->
  doAuthenticate N (setLastAuthAttempt t a) w =
  Ok ((EmptyString, Some (statusError resp)), setLastAuthAttempt t a)
     (w ++ [Sent c (authRequest N a)]).
Proof.
  intros Hdo Hs. unfold doAuthenticate.
  change (authURL (setLastAuthAttempt t a)) with (authURL a).
  change (httpClient (setLastAuthAttempt t a)) with (httpClient a).
  change (authRequest N (setLastAuthAttempt t a)) with (authRequest N a).
  rewrite request_accepted, has_client.
  unfold seq_ at 1, client_Do. rewrite Hdo.
  replace (StatusCode resp =? 200) with false
    by (symmetry; apply Z.eqb_neq; exact Hs).
  reflexivity.
Qed.

(** The request fails in the HTTP client. *)
Lemma doAuthenticate_refused (e0 : error) (t : Time) (w : Auth.World) :
  clientDo N (length (requests w)) c (authRequest N a) = inr e0 ->
  doAuthenticate N (setLastAuthAttempt t a) w =
  Ok ((EmptyString,
       Some (Errorf [Lit "failed to execute auth request: "; VerbW (Some e0)])),
      setLastAuthAttempt t a)
     (w ++ [Sent c (authRequest N a)]).
Proof.
  intros Hdo. unfold doAuthenticate.
  change (authURL (setLastAuthAttempt t a)) with (authURL a).
  change (httpClient (setLastAuthAttempt t a)) with (httpClient a).
  change (authRequest N (setLastAuthAttempt t a)) with (authRequest N a).
  rewrite request_accepted, has_client.
  unfold seq_ at 1, client_Do. rewrite Hdo. reflexivity.
Qed.

(** The request is answered with a token. *)
Lemma doAuthenticate_granted (resp : Response) (tr : TokenResponse) (t : Time)
      (w : Auth.World) :
  clientDo N (length (requests w)) c (authRequest N a) = inl resp ->
  StatusCode resp = 200 ->
  Decode N (ResponseBody resp) = inl tr ->
  AccessToken tr <> EmptyString ->
  doAuthenticate N (setLastAuthAttempt t a) w =
  Ok ((AccessToken tr, None),
      setToken (AccessToken tr) (Add (now N (clockReads w)) (55 * Minute))
               (setLastAuthAttempt t a))
     (w ++ [Sent c (authRequest N a); Clock]).
Proof.
  intros Hdo Hs Hd Ht. unfold doAuthenticate.
  change (authURL (setLastAuthAttempt t a)) with (authURL a).
  change (httpClient (setLastAuthAttempt t a)) with (httpClient a).
  change (authRequest N (setLastAuthAttempt t a)) with (authRequest N a).
  rewrite request_accepted, has_client.
  unfold seq_ at 1, client_Do. rewrite Hdo, Hs, Hd.
  replace (AccessToken tr =? "")%string with false
    by (symmetry; apply String.eqb_neq; exact Ht).
  simpl. unfold seq_, time_Now, unit_.
  rewrite clockReads_app; simpl. rewrite Nat.add_0_r, <- app_assoc.
  reflexivity.
Qed.

(** One turn of the loop, by what [doAuthenticate] does in it, for a
    client [a0] that differs from [a] in the time of its last attempt at
    most. *)
Lemma attemptLoop_turn (attempt : nat) (todo : list nat) (lastErr : option error)
      (a0 : AuthClient) (w w2 : Auth.World)
      (r : string * option error) (a2 : AuthClient) :
  let w1 := w ++ (if (0 <? attempt)%nat then [Waited (backoffOf a attempt)] else []) in
  (forall t, setLastAuthAttempt t a0 = setLastAuthAttempt t a) ->
  ((0 < attempt)%nat -> ctxDone N (selects w) (backoffOf a attempt) = None) ->
  doAuthenticate N (setLastAuthAttempt (now N (clockReads w)) a) (w1 ++ [Clock])
    = Ok (r, a2) w2 ->
  attemptLoop N (attempt :: todo) lastErr a0 w =
  match snd r with
  | None => Ok (Left (fst r, None), a2) w2
  | Some err =>
      if Contains (Error err) "400"
      then attemptLoop N todo (Some err) a2 w2
      else Ok (Through (Some err), a2) w2
  end.
Proof.
  intros w1 Ha Hctx Hrun. cbn [attemptLoop].
  assert (Hb : backoffOf a0 attempt = backoffOf a attempt).
  { unfold backoffOf.
    change (retryBaseDelay a0) with (retryBaseDelay (setLastAuthAttempt 0 a0)).
    rewrite Ha. reflexivity. }
  rewrite Hb.
  assert (Hwait :
    (if (0 <? attempt)%nat then wait N (backoffOf a attempt) else unit_ None) w
    = Ok None w1).
  { unfold w1. destruct (0 <? attempt)%nat eqn:E.
    - unfold wait. rewrite Hctx by (apply Nat.ltb_lt; exact E). reflexivity.
    - unfold unit_. rewrite app_nil_r. reflexivity. }
  rewrite (@seq_Ok _ _ _ _ _ _ _ Hwait).
  unfold seq_ at 1, time_Now.
  assert (Hclock : clockReads w1 = clockReads w).
  { unfold w1. rewrite clockReads_app.
    destruct (0 <? attempt)%nat; simpl; lia. }
  rewrite Hclock, Ha.
  rewrite (@seq_Ok _ _ _ _ _ _ _ Hrun). cbn [fst snd].
  destruct (snd r) as [e|]; [destruct (Contains (Error e) "400")|];
    reflexivity.
Qed.

End AuthRuns.

Section AuthRefresh.

Import Auth.
Local Open Scope auth_scope.

Variable N : Net.
Variable a : AuthClient.
Variable c : HTTPClient.

Hypothesis has_client : httpClient a = Some c.
Hypothesis request_accepted : requestError N "POST" (authURL a) = None.

Let req : Request := authRequest N a.

Lemma selects_app (l1 l2 : list Event) :
  selects (l1 ++ l2) = (selects l1 + selects l2)%nat.
Proof.
  induction l1 as [|e l1 IH]; simpl; [reflexivity|].
  destruct e; simpl; rewrite IH; reflexivity.
Qed.

Lemma failedTries_S (k : nat) :
  failedTries N a c (S k) = failedTries N a c k ++ failedTry N a c k.
Proof.
  unfold failedTries. rewrite seq_S, flat_map_app; simpl.
  rewrite app_nil_r; reflexivity.
Qed.

Lemma clockReads_failedTries (k : nat) : clockReads (failedTries N a c k) = k.
Proof.
  induction k as [|k IH]; [reflexivity|].
  rewrite failedTries_S, clockReads_app, IH. unfold failedTry.
  rewrite clockReads_app. destruct (0 <? k)%nat; simpl; lia.
Qed.

Lemma requests_failedTries (k : nat) :
  requests (failedTries N a c k) = repeat req k.
Proof.
  induction k as [|k IH]; [reflexivity|].
  rewrite failedTries_S, requests_app, IH. unfold failedTry.
  rewrite requests_app. destruct (0 <? k)%nat; simpl;
    rewrite repeat_cons; reflexivity.
Qed.

Lemma waits_failedTries (k : nat) :
  waits (failedTries N a c (S k)) = map (backoffOf a) (seq 1 k).
Proof.
  induction k as [|k IH]; [reflexivity|].
  rewrite failedTries_S, waits_app, IH, seq_S, map_app. reflexivity.
Qed.

(** The client after [k] failed attempts that began in the world [w]. *)
Let after (w : Auth.World) (k : nat) : AuthClient :=
  match k with
  | O => a
  | S k' => setLastAuthAttempt (now N (clockReads w + k')) a
  end.

(** [k] attempts that are answered with status 400, when the context is
    never done: each is retried. *)
Lemma attemptLoop_400 (body : nat -> string) (w : Auth.World) (k : nat) :
  forall (todo : list nat) (lastErr : option error),
    (forall n d, ctxDone N n d = None) ->
    (forall j, (j < k)%nat ->
       clientDo N (length (requests w) + j) c req = inl (mkResponse 400 (body j))) ->
    attemptLoop N (seq 0 k ++ todo) lastErr a w =
    attemptLoop N todo
      (match k with
       | O => lastErr
       | S k' => Some (statusError (mkResponse 400 (body k')))
       end)
      (after w k) (w ++ failedTries N a c k).
Proof.
  induction k as [|k IH]; intros todo lastErr Hctx Hdo.
  - simpl. rewrite app_nil_r. reflexivity.
  - rewrite seq_S, <- app_assoc; simpl.
    rewrite IH by (auto; intros j Hj; apply Hdo; lia).
    set (wk := w ++ failedTries N a c k).
    assert (Hck : clockReads wk = (clockReads w + k)%nat)
      by (unfold wk; rewrite clockReads_app, clockReads_failedTries; reflexivity).
    assert (Hrk : length (requests wk) = (length (requests w) + k)%nat)
      by (unfold wk; rewrite requests_app, length_app, requests_failedTries,
            repeat_length; reflexivity).
    set (w1 := wk ++ (if (0 <? k)%nat then [Waited (backoffOf a k)] else [])).
    assert (Hr1 : length (requests (w1 ++ [Clock])) = (length (requests w) + k)%nat).
    { unfold w1. rewrite !requests_app, !length_app, Hrk.
      destruct (0 <? k)%nat; simpl; lia. }
    assert (Hrun :
      doAuthenticate N (setLastAuthAttempt (now N (clockReads wk)) a) (w1 ++ [Clock])
      = Ok ((EmptyString, Some (statusError (mkResponse 400 (body k)))),
            setLastAuthAttempt (now N (clockReads wk)) a)
           ((w1 ++ [Clock]) ++ [Sent c req])).
    { apply (@doAuthenticate_status N a c has_client request_accepted).
      - rewrite Hr1. apply Hdo; lia.
      - simpl; lia. }
    assert (Hafter : forall t, setLastAuthAttempt t (after w k) = setLastAuthAttempt t a)
      by (intros t; destruct k; reflexivity).
    rewrite (@attemptLoop_turn N a k todo _ (after w k) wk _ _ _
               Hafter (fun _ => Hctx _ _) Hrun).
    cbn [snd fst]. rewrite statusError_400.
    unfold after. rewrite Hck.
    f_equal. unfold w1, wk. rewrite failedTries_S. unfold failedTry.
    rewrite <- !app_assoc. reflexivity.
Qed.

(** The time since the last attempt, read in the world [w], and what
    [refreshToken] does before its loop when no token is stored: it reads
    the clock and waits for the rest of the minimum interval. *)
Let since (w : Auth.World) : Duration :=
  Sub (now N (clockReads w)) (lastAuthAttempt a).

Let pre (w : Auth.World) : list Event :=
  Clock :: (if since w <? minAuthInterval a
            then [Waited (wrapInt (minAuthInterval a - since w))]
            else []).

Lemma GetToken_empty (w : Auth.World) :
  token a = EmptyString -> GetToken N a w = refreshToken N a w.
Proof. intros Ht; unfold GetToken; rewrite Ht; reflexivity. Qed.

Lemma refreshToken_start (w : Auth.World) :
  token a = EmptyString ->
  (since w < minAuthInterval a ->
   ctxDone N (selects w) (wrapInt (minAuthInterval a - since w)) = None) ->
  refreshToken N a w =
  (x <- attemptLoop N (seq 0 (Z.to_nat (maxRetries a + 1))) None a ;;
   match fst x with
   | Left r => unit_ (r, snd x)
   | Through lastErr =>
       unit_ ((EmptyString,
               Some (Errorf [Lit "authentication failed after ";
                             VerbD (wrapInt (maxRetries a + 1));
                             Lit " attempts: ";
                             VerbW lastErr])),
              snd x)
   end) (w ++ pre w).
Proof.
  intros Ht Hctx. unfold refreshToken. rewrite Ht.
  simpl negb; cbv iota.
  rewrite (@seq_Ok _ _ _ _ _ _ _ (eq_refl : unit_ false w = Ok false w)).
  cbv iota.
  unfold seq_ at 1, time_Since, seq_ at 1, time_Now, unit_ at 1.
  fold (since w). unfold pre.
  destruct (since w <? minAuthInterval a) eqn:E.
  - apply Z.ltb_lt in E.
    unfold seq_ at 1, wait.
    rewrite selects_app; simpl. rewrite Nat.add_0_r, (Hctx E).
    rewrite <- app_assoc. reflexivity.
  - unfold seq_ at 1, unit_ at 1. reflexivity.
Qed.

Lemma clockReads_pre (w : Auth.World) :
  clockReads (w ++ pre w) = (clockReads w + 1)%nat.
Proof.
  rewrite clockReads_app. unfold pre.
  destruct (since w <? minAuthInterval a); reflexivity.
Qed.

Lemma requests_pre (w : Auth.World) : requests (w ++ pre w) = requests w.
Proof.
  rewrite requests_app. unfold pre.
  destruct (since w <? minAuthInterval a); simpl; apply app_nil_r.
Qed.

Lemma attempts_cons : 0 <= maxRetries a ->
  seq 0 (Z.to_nat (maxRetries a + 1)) = 0%nat :: seq 1 (Z.to_nat (maxRetries a)).
Proof.
  intros H. rewrite Z2Nat.inj_add by lia. rewrite Nat.add_comm. reflexivity.
Qed.

(** X19. The first login.  With no token stored, [GetToken] reads the
    clock, waits for what is left of the minimum interval since the last
    attempt (if anything is), reads the clock for [lastAuthAttempt] and
    sends one request; when that is answered with status 200 and a token
    that is not empty, it reads the clock once more, stores the token with
    an expiry of 55 minutes from that reading, and returns the token. *)
Theorem GetToken_first_login (resp : Response) (tr : TokenResponse) (w : Auth.World) :
  token a = EmptyString ->
  0 <= maxRetries a ->
  (since w < minAuthInterval a ->
   ctxDone N (selects w) (wrapInt (minAuthInterval a - since w)) = None) ->
  clientDo N (length (requests w)) c req = inl resp ->
  StatusCode resp = 200 ->
  Decode N (ResponseBody resp) = inl tr ->
  AccessToken tr <> EmptyString ->
  exists a',
    GetToken N a w =
      Ok ((AccessToken tr, None), a') (w ++ pre w ++ [Clock; Sent c req; Clock]) /\
    token a' = AccessToken tr /\
    lastAuthAttempt a' = now N (clockReads w + 1) /\
    tokenExpiry a' = now N (clockReads w + 2) + 55 * Minute /\
    sameSettings a a'.
Proof.
  intros Ht Hm Hctx Hdo Hs Hd Hne.
  rewrite (GetToken_empty w Ht), (refreshToken_start w Ht Hctx).
  rewrite (attempts_cons Hm).
  set (w0 := w ++ pre w).
  assert (Hrun :
    doAuthenticate N (setLastAuthAttempt (now N (clockReads w0)) a)
      ((w0 ++ (if (0 <? 0)%nat then [Waited (backoffOf a 0)] else [])) ++ [Clock])
    = Ok ((AccessToken tr, None),
          setToken (AccessToken tr)
            (Add (now N (clockReads ((w0 ++ []) ++ [Clock]))) (55 * Minute))
            (setLastAuthAttempt (now N (clockReads w0)) a))
         (((w0 ++ []) ++ [Clock]) ++ [Sent c req; Clock])).
  { apply (@doAuthenticate_granted N a c has_client request_accepted resp tr);
      auto.
    simpl. rewrite app_nil_r, requests_app; unfold w0.
    rewrite requests_pre; simpl. rewrite app_nil_r. exact Hdo. }
  rewrite (@seq_Ok _ _ _ _ _ _ _
             (@attemptLoop_turn N a 0 (seq 1 (Z.to_nat (maxRetries a))) None a
                w0 _ _ _ (fun t => eq_refl) (fun H => match Nat.lt_irrefl 0 H with end) Hrun)).
  cbn [fst snd]. unfold unit_.
  eexists; split.
  { f_equal. unfold w0. rewrite app_nil_r, <- !app_assoc. reflexivity. }
  simpl. unfold w0.
  rewrite app_nil_r, (clockReads_app (w ++ pre w) [Clock]), !clockReads_pre.
  simpl clockReads.
  replace (clockReads w + 1 + 1)%nat with (clockReads w + 2)%nat by lia.
  unfold Add, sameSettings; simpl. auto 10.
Qed.

Lemma wrapInt_attempts :
  0 <= maxRetries a < maxInt -> wrapInt (maxRetries a + 1) = maxRetries a + 1.
Proof.
  intros H; apply wrapInt_in_range; unfold minInt, maxInt in *; lia.
Qed.

(** X20. An error whose text does not hold "400" is not retried.  When
    the HTTP client fails on the first request with such an error,
    [GetToken] sends no second request; it returns an error that wraps
    the failure and whose text still speaks of [maxRetries + 1] attempts.
    The stored token stays empty. *)
Theorem GetToken_gives_up (e0 : error) (w : Auth.World) :
  token a = EmptyString ->
  0 <= maxRetries a < maxInt ->
  (since w < minAuthInterval a ->
   ctxDone N (selects w) (wrapInt (minAuthInterval a - since w)) = None) ->
  clientDo N (length (requests w)) c req = inr e0 ->
  Contains (Error e0) "400" = false ->
  exists e inner a',
    GetToken N a w =
      Ok ((EmptyString, Some e), a') (w ++ pre w ++ [Clock; Sent c req]) /\
    requests (w ++ pre w ++ [Clock; Sent c req]) = requests w ++ [req] /\
    Unwrap e = Some inner /\ Unwrap inner = Some e0 /\
    Error e = ("authentication failed after " ++ decimal (maxRetries a + 1)
               ++ " attempts: failed to execute auth request: " ++ Error e0)%string /\
    token a' = EmptyString /\ sameSettings a a'.
Proof.
  intros Ht Hm Hctx Hdo Hno.
  rewrite (GetToken_empty w Ht), (refreshToken_start w Ht Hctx).
  rewrite (attempts_cons (proj1 Hm)), (wrapInt_attempts Hm).
  set (w0 := w ++ pre w).
  assert (Hrun :
    doAuthenticate N (setLastAuthAttempt (now N (clockReads w0)) a)
      ((w0 ++ (if (0 <? 0)%nat then [Waited (backoffOf a 0)] else [])) ++ [Clock])
    = Ok ((EmptyString,
           Some (Errorf [Lit "failed to execute auth request: "; VerbW (Some e0)])),
          setLastAuthAttempt (now N (clockReads w0)) a)
         (((w0 ++ []) ++ [Clock]) ++ [Sent c req])).
  { apply (@doAuthenticate_refused N a c has_client request_accepted e0).
    simpl. rewrite app_nil_r, requests_app; unfold w0.
    rewrite requests_pre; simpl. rewrite app_nil_r. exact Hdo. }
  pose proof (@attemptLoop_turn N a 0 (seq 1 (Z.to_nat (maxRetries a))) None a
                w0 _ _ _ (fun t => eq_refl)
                (fun H => match Nat.lt_irrefl 0 H with end) Hrun) as Hturn.
  cbn [fst snd] in Hturn.
  assert (Htext : Error (Errorf [Lit "failed to execute auth request: "; VerbW (Some e0)])
                  = ("failed to execute auth request: " ++ Error e0)%string).
  { rewrite Error_Errorf; unfold Sprint, render. rewrite append_empty; reflexivity. }
  assert (Hc400 : Contains (Error (Errorf [Lit "failed to execute auth request: ";
                                           VerbW (Some e0)])) "400" = false).
  { rewrite Htext.
    transitivity (Contains (Error e0) "400"); [reflexivity|exact Hno]. }
  rewrite Hc400 in Hturn.
  rewrite (@seq_Ok _ _ _ _ _ _ _ Hturn).
  cbn [fst snd]. unfold unit_.
  eexists _, _, _; split.
  { f_equal. unfold w0. rewrite app_nil_r, <- !app_assoc. reflexivity. }
  split.
  { rewrite !requests_app. unfold pre.
    destruct (since w <? minAuthInterval a); reflexivity. }
  split; [reflexivity|].
  split; [reflexivity|].
  split.
  { rewrite Error_Errorf; unfold Sprint, render.
    rewrite Htext, append_empty; reflexivity. }
  split; [exact Ht|]. unfold sameSettings; simpl; auto 10.
Qed.

(** [backoffOf] inside the range of [time.Duration]. *)
Lemma backoffOf_in_range (i M : nat) :
  0 <= retryBaseDelay a ->
  retryBaseDelay a * 2 ^ Z.of_nat M <= maxInt ->
  (1 <= i <= M)%nat ->
  backoffOf a i = retryBaseDelay a * 2 ^ (Z.of_nat i - 1).
Proof.
  intros Hb Hmax Hi. unfold backoffOf.
  assert (Hp : 0 < 2 ^ (Z.of_nat i - 1)) by (apply Z.pow_pos_nonneg; lia).
  assert (Hq : 2 ^ (Z.of_nat i - 1) <= 2 ^ Z.of_nat M)
    by (apply Z.pow_le_mono_r; lia).
  assert (Hpm : 0 < 2 ^ Z.of_nat M) by (apply Z.pow_pos_nonneg; lia).
  assert (Hprod : retryBaseDelay a * 2 ^ (Z.of_nat i - 1) <= maxInt).
  { apply Z.le_trans with (retryBaseDelay a * 2 ^ Z.of_nat M); [|exact Hmax].
    apply Z.mul_le_mono_nonneg_l; assumption. }
  assert (H63 : 2 ^ (Z.of_nat i - 1) <= maxInt \/ retryBaseDelay a = 0).
  { destruct (Z.eq_dec (retryBaseDelay a) 0) as [E|E]; [right; exact E|left].
    apply Z.le_trans with (retryBaseDelay a * 2 ^ (Z.of_nat i - 1)); [|exact Hprod].
    nia. }
  destruct H63 as [H63|E].
  - rewrite (@wrapInt_in_range (2 ^ (Z.of_nat i - 1)))
      by (unfold minInt, maxInt in *; lia).
    apply wrapInt_in_range.
    split; [|exact Hprod].
    apply Z.le_trans with 0; [unfold minInt; lia|].
    apply Z.mul_nonneg_nonneg; lia.
  - rewrite E, !Z.mul_0_l. reflexivity.
Qed.

(** X21. Status 400 is retried to the end.  With no token stored, a
    context that is never done and every request answered with status 400,
    [GetToken] sends [maxRetries + 1] requests; before the attempts after
    the first it waits [retryBaseDelay], twice that, four times that and
    so on; and it returns an error that wraps the last answer and names
    [maxRetries + 1] attempts. *)
Theorem GetToken_rate_limited (body : nat -> string) (w : Auth.World) :
  let M := Z.to_nat (maxRetries a) in
  token a = EmptyString ->
  0 <= maxRetries a < maxInt ->
  0 <= retryBaseDelay a ->
  retryBaseDelay a * 2 ^ maxRetries a <= maxInt ->
  (forall n d, ctxDone N n d = None) ->
  (forall j, (j <= M)%nat ->
     clientDo N (length (requests w) + j) c req = inl (mkResponse 400 (body j))) ->
  exists e a' w',
    GetToken N a w = Ok ((EmptyString, Some e), a') w' /\
    requests w' = requests w ++ repeat req (M + 1) /\
    waits w' =
      waits (w ++ pre w) ++
      map (fun i => retryBaseDelay a * 2 ^ (Z.of_nat i - 1)) (seq 1 M) /\
    Unwrap e = Some (statusError (mkResponse 400 (body M))) /\
    Error e = ("authentication failed after " ++ decimal (maxRetries a + 1)
               ++ " attempts: authentication failed with status code 400: "
               ++ body M)%string /\
    token a' = EmptyString /\ sameSettings a a'.
Proof.
  intros M Ht Hm Hb Hmax Hctx Hdo.
  rewrite (GetToken_empty w Ht), (refreshToken_start w Ht (fun _ => Hctx _ _)).
  rewrite (wrapInt_attempts Hm).
  replace (Z.to_nat (maxRetries a + 1)) with (S M)
    by (unfold M; rewrite Z2Nat.inj_add by lia; simpl; lia).
  set (w0 := w ++ pre w).
  assert (Hdo0 : forall j, (j < S M)%nat ->
    clientDo N (length (requests w0) + j) c req = inl (mkResponse 400 (body j))).
  { intros j Hj. unfold w0. rewrite requests_pre. apply Hdo; lia. }
  pose proof (@attemptLoop_400 body w0 (S M) [] None Hctx Hdo0) as Hloop.
  rewrite app_nil_r in Hloop.
  unfold seq_ at 1. rewrite Hloop. cbn [attemptLoop]. unfold unit_ at 1.
  cbn [fst snd]. unfold unit_.
  eexists _, _, _; split; [reflexivity|].
  split.
  { unfold w0. rewrite requests_app, requests_pre, requests_failedTries.
    replace (S M) with (M + 1)%nat by lia. reflexivity. }
  split.
  { rewrite waits_app, waits_failedTries. f_equal.
    apply map_ext_in; intros i Hi; apply in_seq in Hi.
    apply backoffOf_in_range with (M := M); auto; [|lia].
    unfold M; rewrite Z2Nat.id by lia; exact Hmax. }
  split; [reflexivity|].
  split.
  { rewrite Error_Errorf; unfold Sprint, render.
    unfold statusError; rewrite Error_Errorf; unfold Sprint, render.
    rewrite !append_empty. reflexivity. }
  split; [exact Ht|]. unfold sameSettings; simpl; auto 10.
Qed.

(** X22. When the context is done while [GetToken] still waits for the
    minimum interval since the last attempt, it returns [ctx.Err()]
    without having sent a request, and the client is as it was. *)
Theorem GetToken_cancelled (e : error) (w : Auth.World) :
  token a = EmptyString ->
  since w < minAuthInterval a ->
  ctxDone N (selects w) (wrapInt (minAuthInterval a - since w)) = Some e ->
  GetToken N a w =
    Ok ((EmptyString, Some e), a)
       (w ++ [Clock; Cancelled (wrapInt (minAuthInterval a - since w))]) /\
  requests (w ++ [Clock; Cancelled (wrapInt (minAuthInterval a - since w))])
    = requests w.
Proof.
  intros Ht Hs Hctx. split.
  - rewrite (GetToken_empty w Ht). unfold refreshToken. rewrite Ht.
    simpl negb; cbv iota.
    rewrite (@seq_Ok _ _ _ _ _ _ _ (eq_refl : unit_ false w = Ok false w)).
    cbv iota.
    unfold seq_ at 1, time_Since, seq_ at 1, time_Now, unit_ at 1.
    fold (since w).
    replace (since w <? minAuthInterval a) with true
      by (symmetry; apply Z.ltb_lt; exact Hs).
    unfold seq_ at 1, wait.
    rewrite selects_app; simpl. rewrite Nat.add_0_r, Hctx.
    rewrite <- app_assoc. reflexivity.
  - rewrite requests_app; simpl; apply app_nil_r.
Qed.

End AuthRefresh.

Section AuthHeader.

Import Auth.
Local Open Scope auth_scope.

Variable N : Net.

Lemma HeaderGet_Set (key value : string) (h : Header) :
  HeaderGet key (HeaderSet key value h) = value.
Proof. unfold HeaderSet; simpl. rewrite String.eqb_refl. reflexivity. Qed.

Lemma HeaderGet_Set_other (key value k : string) (h : Header) :
  k <> key -> HeaderGet k (HeaderSet key value h) = HeaderGet k h.
Proof.
  intros Hk. unfold HeaderSet; simpl.
  replace (key =? k)%string with false
    by (symmetry; apply String.eqb_neq; congruence).
  induction h as [|[k0 v0] h IH]; simpl; [reflexivity|].
  destruct (k0 =? key)%string eqn:E; simpl.
  - apply String.eqb_eq in E; subst k0.
    replace (key =? k)%string with false
      by (symmetry; apply String.eqb_neq; congruence).
    exact IH.
  - rewrite IH. reflexivity.
Qed.

(** The request with the token in its [Authorization] header. *)
Let authorized (tok : string) (req : Request) : Request :=
  mkRequest (Method req) (URL req) (Body req)
            (HeaderSet "Authorization" (Sprint [Lit "Bearer "; VerbS tok])
                       (Headers req)).

Lemma AddAuthHeader_run
  (a a' : AuthClient) (req : Request) (w w' : Auth.World)
  (tok : string) (err : option error) :
  GetToken N a w = Ok ((tok, err), a') w' ->
  AddAuthHeader N a req w =
  Ok ((err, match err with Some _ => req | None => authorized tok req end), a') w'.
Proof.
  intros Hrun. unfold AddAuthHeader.
  rewrite (@seq_Ok _ _ _ _ _ _ _ Hrun). cbn [fst snd].
  destruct err; reflexivity.
Qed.

(** X23. [AddAuthHeader] gets the token from [GetToken].  With a token it
    sets the header [Authorization] to "Bearer " and the token, whatever
    the header held, and leaves the other headers, the method, the URL and
    the body alone; with an error it returns the error and leaves the
    request alone. *)
Theorem AddAuthHeader_bearer
  (a a' : AuthClient) (req : Request) (w w' : Auth.World)
  (tok : string) (err : option error) :
  GetToken N a w = Ok ((tok, err), a') w' ->
  exists req',
    AddAuthHeader N a req w = Ok ((err, req'), a') w' /\
    match err with
    | Some _ => req' = req
    | None =>
        HeaderGet "Authorization" (Headers req') = ("Bearer " ++ tok)%string /\
        (forall k, k <> "Authorization"%string ->
                   HeaderGet k (Headers req') = HeaderGet k (Headers req)) /\
        Method req' = Method req /\ URL req' = URL req /\ Body req' = Body req
    end.
Proof.
  intros Hrun. unfold AddAuthHeader.
  rewrite (@seq_Ok _ _ _ _ _ _ _ Hrun). cbn [fst snd].
  destruct err as [e|].
  - exists req; split; reflexivity.
  - exists (authorized tok req); split; [reflexivity|].
    unfold authorized; cbn [Headers Method URL Body Sprint render].
    rewrite (HeaderGet_Set "Authorization"), append_empty.
    repeat split; auto.
    intros k Hk. apply HeaderGet_Set_other; exact Hk.
Qed.

(** X24. [RoundTrip] of the authenticating transport: when [GetToken]
    gives a token, the copy of the request with the [Authorization]
    header goes to the base round tripper, once, and its answer is
    returned; when [GetToken] fails, its error is returned and nothing is
    sent on. *)
Theorem RoundTrip_forwards
  (base : RoundTripper) (a a' : AuthClient) (req : Request) (w w' : Auth.World)
  (tok : string) (err : option error) :
  GetToken N a w = Ok ((tok, err), a') w' ->
  match err with
  | Some e => RoundTrip N base a req w = Ok ((None, Some e), a') w'
  | None =>
      exists req',
        RoundTrip N base a req w =
          Ok (match roundTrip N (length (trips w')) base req' with
              | inl resp => (Some resp, None)
              | inr e => (None, Some e)
              end, a')
             (w' ++ [Tripped base req']) /\
        HeaderGet "Authorization" (Headers req') = ("Bearer " ++ tok)%string /\
        URL req' = URL req /\ Method req' = Method req /\ Body req' = Body req
  end.
Proof.
  intros Hrun.
  pose proof (@AddAuthHeader_run a a' req w w' tok err Hrun) as Hadd.
  destruct err as [e|].
  - unfold RoundTrip. rewrite (@seq_Ok _ _ _ _ _ _ _ Hadd). reflexivity.
  - exists (authorized tok req); split.
    + unfold RoundTrip. rewrite (@seq_Ok _ _ _ _ _ _ _ Hadd). cbn [fst snd].
      unfold seq_, base_RoundTrip, unit_.
      destruct (roundTrip N (length (trips w')) base (authorized tok req));
        reflexivity.
    + unfold authorized; cbn [Headers Method URL Body Sprint render].
      rewrite (HeaderGet_Set "Authorization"), append_empty. auto.
Qed.

End AuthHeader.

(** * The further properties on the test doubles *)


Lemma heldOnce_reachable : reachable (flaky 0) heldOnce.
Proof.
  apply (@reach_GetOrCreate (flaky 0) emptyPool cfgX (boot "")
           (Some (mkClient 0 (Some 0%nat)), None) heldOnce
           (setAllocated 1 (extend [Dialed "http://x" "a" "b"] (boot "")))).
  - apply reach_new.
  - reflexivity.
Defined.

Lemma reachable_pool_shape_witness :
  exists c k pc,
    client heldOnce = Some c /\ Kuma c = Some k /\ config heldOnce = Some pc.
Proof.
  destruct (@reachable_pool_shape (flaky 0) heldOnce heldOnce_reachable)
    as [(H & _)|H]; [discriminate H|exact H].
Defined.

Lemma GetOrCreate_returns_witness :
  exists r p' w',
    GetOrCreate (flaky 0) heldOnce cfgY (boot "") = Done (r, p') w' /\
    ((exists c k, r = (Some c, None) /\ Kuma c = Some k) \/
     (exists e, r = (None, Some e))).
Proof.
  exact (@GetOrCreate_returns (flaky 0) heldOnce cfgY (boot "") heldOnce_reachable).
Defined.

Lemma GetOrCreate_then_Release_witness :
  exists p1,
    GetOrCreate (flaky 0) held cfgX (boot "") =
      Done ((Some (mkClient 0 (Some 7%nat)), None), p1) (boot "") /\
    Release p1 (boot "") = Done (tt, held) (boot "").
Proof.
  apply (@GetOrCreate_then_Release (flaky 0) held (mkClient 0 (Some 7%nat)) cfgX (boot "")).
  - reflexivity.
  - reflexivity.
  - unfold maxInt; simpl; lia.
Defined.

Lemma GetOrCreate_times_witness :
  calls 3 (fun q => GetOrCreate (flaky 0) q cfgX) held (boot "") =
  Done (repeat (Some (mkClient 0 (Some 7%nat)), None) 3,
        mkPool (Some (mkClient 0 (Some 7%nat))) (Some cfgX) 6) (boot "").
Proof.
  apply (@GetOrCreate_times (flaky 0) 3 held (mkClient 0 (Some 7%nat)) cfgX (boot "")).
  - reflexivity.
  - reflexivity.
  - unfold minInt; simpl; lia.
  - unfold maxInt; simpl; lia.
Defined.

Lemma GetOrCreate_times_from_empty_witness :
  calls 3 (fun q => GetOrCreate (flaky 0) q cfgX) emptyPool (boot "") =
  Done (repeat (Some (mkClient 0 (Some 0%nat)), None) 3,
        mkPool (Some (mkClient 0 (Some 0%nat))) (Some cfgX) 3)
       (setAllocated 1 (extend [Dialed "http://x" "a" "b"] (boot ""))).
Proof.
  apply (@GetOrCreate_times_from_empty (flaky 0) 2 cfgX 0%nat (boot "")).
  - reflexivity.
  - unfold maxInt; simpl; lia.
Defined.

Lemma Release_times_witness :
  calls 5 Release held (boot "") =
  Done (repeat tt 5, mkPool (client held) (config held) 0) (boot "").
Proof.
  apply (@Release_times 5 held (boot "")). simpl; lia.
Defined.

Lemma afterNew_run :
  New (flaky 0) cfgXPooled (boot "") =
  Done (Some (mkClient 0 (Some 0%nat)), None) afterNew.
Proof. reflexivity. Qed.

Lemma New_pooled_twice_witness :
  exists w2,
    New (flaky 0) cfgXPooled afterNew =
      Done (Some (mkClient 0 (Some 0%nat)), None) w2 /\
    events w2 = [Dialed "http://x" "a" "b"].
Proof.
  destruct (@New_pooled_twice (flaky 0) cfgXPooled cfgXPooled
              (mkClient 0 (Some 0%nat)) (boot "") afterNew)
    as (w2 & Hrun & He & _).
  - left; reflexivity.
  - left; reflexivity.
  - reflexivity.
  - exact afterNew_run.
  - exists w2; split; [exact Hrun|]. rewrite He; reflexivity.
Defined.

Lemma New_pooled_mismatch_witness :
  exists e w2,
    New (flaky 0) cfgYPooled afterNew = Done (None, Some e) w2 /\
    Error e = "connection pool config mismatch: existing connection uses different credentials (URL: http://x vs http://y)"%string /\
    events w2 = [Dialed "http://x" "a" "b"].
Proof.
  destruct (@New_pooled_mismatch (flaky 0) cfgXPooled cfgYPooled
              (mkClient 0 (Some 0%nat)) (boot "") afterNew)
    as (e & w2 & p1 & Hrun & [_ Hmsg] & He & _).
  - left; reflexivity.
  - left; reflexivity.
  - discriminate.
  - discriminate.
  - exact afterNew_run.
  - exists e, w2; repeat split; [exact Hrun|exact Hmsg|].
    rewrite He; reflexivity.
Defined.

Lemma testRun_one_connection_witness :
  exists w',
    testRun (flaky 0) 3 cfgX (boot "") =
      Done (repeat (Some (mkClient 0 (Some 0%nat)), None) 3, None) w' /\
    events w' = [Dialed "http://x" "a" "b"; Disconnected 0%nat] /\
    globalPool w' = Some emptyPool.
Proof.
  apply (@testRun_one_connection (flaky 0) cfgX 2 0%nat (boot "")).
  - reflexivity.
  - discriminate.
  - reflexivity.
  - unfold maxInt; simpl; lia.
Defined.

Lemma New_direct_twice_witness :
  exists c1 c2 w1 w2,
    New (flaky 0) cfgX (boot "") = Done (Some c1, None) w1 /\
    New (flaky 0) cfgX w1 = Done (Some c2, None) w2 /\
    addr c1 <> addr c2 /\
    Kuma c1 = Some 0%nat /\ Kuma c2 = Some 1%nat /\
    events w2 = [Dialed "http://x" "a" "b"; Dialed "http://x" "a" "b"] /\
    globalPool w2 = None.
Proof.
  apply (@New_direct_twice (flaky 0) cfgX 0%nat 1%nat (boot "")).
  - discriminate.
  - reflexivity.
  - simpl; discriminate.
  - reflexivity.
  - reflexivity.
Defined.

Lemma doAuthenticate_token_or_error_witness :
  exists r a' w',
    Auth.doAuthenticate (AuthDouble.limited 0) AuthDouble.fresh [] =
      Auth.Ok (r, a') w' /\
    ((exists tok,
        r = (tok, None) /\ tok <> EmptyString /\
        Auth.token a' = tok /\
        Auth.tokenExpiry a' = Auth.Add (1000 * Second) (55 * Auth.Minute) /\
        Auth.requests w' =
          [Auth.authRequest (AuthDouble.limited 0) AuthDouble.fresh]) \/
     (exists e,
        r = (EmptyString, Some e) /\ a' = AuthDouble.fresh /\
        (Auth.requests w' = [] \/
         Auth.requests w' =
           [Auth.authRequest (AuthDouble.limited 0) AuthDouble.fresh]))).
Proof.
  exact (@doAuthenticate_token_or_error (AuthDouble.limited 0)
           AuthDouble.fresh AuthDouble.plain [] eq_refl).
Defined.

Lemma GetToken_cached_witness :
  Auth.GetToken (AuthDouble.limited 0) AuthDouble.logged [] =
  Auth.Ok (("T1"%string, None), AuthDouble.logged) [Auth.Clock].
Proof.
  apply (@GetToken_cached (AuthDouble.limited 0) AuthDouble.logged []).
  - discriminate.
  - unfold Auth.Minute, Second; simpl; lia.
Defined.

Lemma token_lifetime_witness :
  let a' := Auth.setToken "T1" (Auth.Add (1000 * Second) (55 * Auth.Minute))
                          AuthDouble.fresh in
  Auth.GetToken (AuthDouble.limited 0) a' [Auth.Clock; Auth.Clock] =
  Auth.Ok (("T1"%string, None), a') [Auth.Clock; Auth.Clock; Auth.Clock].
Proof.
  intros a'.
  apply (@token_lifetime (AuthDouble.limited 0) AuthDouble.fresh a'
           AuthDouble.plain "T1" []
           [Auth.Sent AuthDouble.plain
                      (Auth.authRequest (AuthDouble.limited 0) AuthDouble.fresh);
            Auth.Clock]
           [Auth.Clock; Auth.Clock]).
  - reflexivity.
  - reflexivity.
  - unfold Auth.Minute, Second; simpl; lia.
Defined.

Lemma GetToken_token_or_error_witness :
  exists r a' w',
    Auth.GetToken AuthDouble.down AuthDouble.fresh [] = Auth.Ok (r, a') w' /\
    Auth.tokenOrError AuthDouble.fresh a' r /\
    (length (Auth.requests w') <= 4)%nat.
Proof.
  destruct (@GetToken_token_or_error AuthDouble.down AuthDouble.fresh
              AuthDouble.plain [] eq_refl)
    as (r & a' & w' & Hrun & _ & Ht & Hn).
  - unfold maxInt; simpl; lia.
  - exists r, a', w'; repeat split; assumption.
Defined.

Lemma GetToken_first_login_witness :
  exists a',
    Auth.GetToken (AuthDouble.limited 0) AuthDouble.fresh [] =
      Auth.Ok (("T1"%string, None), a')
        [Auth.Clock; Auth.Clock;
         Auth.Sent AuthDouble.plain
                   (Auth.authRequest (AuthDouble.limited 0) AuthDouble.fresh);
         Auth.Clock] /\
    Auth.lastAuthAttempt a' = 1001 * Second /\
    Auth.tokenExpiry a' = 1002 * Second + 55 * Auth.Minute.
Proof.
  destruct (@GetToken_first_login (AuthDouble.limited 0) AuthDouble.fresh
              AuthDouble.plain eq_refl eq_refl
              (Auth.mkResponse 200 "token") (Auth.mkTokenResponse "T1" "bearer") [])
    as (a' & Hrun & _ & Hl & He & _).
  - reflexivity.
  - simpl; lia.
  - intros H; vm_compute in H; discriminate H.
  - reflexivity.
  - reflexivity.
  - reflexivity.
  - discriminate.
  - exists a'; split; [exact Hrun|]. split; assumption.
Defined.

Lemma GetToken_gives_up_witness :
  exists e a' w',
    Auth.GetToken AuthDouble.down AuthDouble.fresh [] =
      Auth.Ok ((EmptyString, Some e), a') w' /\
    length (Auth.requests w') = 1%nat /\
    Error e = "authentication failed after 4 attempts: failed to execute auth request: connection refused"%string.
Proof.
  destruct (@GetToken_gives_up AuthDouble.down AuthDouble.fresh
              AuthDouble.plain eq_refl eq_refl
              (errorString "connection refused") [])
    as (e & inner & a' & Hrun & Hr & _ & _ & He & _).
  - reflexivity.
  - unfold maxInt; simpl; lia.
  - intros H; vm_compute in H; discriminate H.
  - reflexivity.
  - reflexivity.
  - eexists e, a', _; split; [exact Hrun|].
    split; [rewrite Hr; reflexivity|exact He].
Defined.

Lemma GetToken_rate_limited_witness :
  exists e a' w',
    Auth.GetToken (AuthDouble.limited 4) AuthDouble.fresh [] =
      Auth.Ok ((EmptyString, Some e), a') w' /\
    length (Auth.requests w') = 4%nat /\
    Auth.waits w' = [1 * Second; 2 * Second; 4 * Second] /\
    Error e = "authentication failed after 4 attempts: authentication failed with status code 400: Too frequently"%string.
Proof.
  destruct (@GetToken_rate_limited (AuthDouble.limited 4) AuthDouble.fresh
              AuthDouble.plain eq_refl eq_refl
              (fun _ => "Too frequently"%string) [])
    as (e & a' & w' & Hrun & Hr & Hw & _ & He & _).
  - reflexivity.
  - unfold maxInt; simpl; lia.
  - simpl; unfold Second; lia.
  - unfold maxInt, Second; simpl; lia.
  - reflexivity.
  - intros j Hj; simpl.
    destruct (Nat.ltb_spec j 4); [reflexivity|simpl in Hj; lia].
  - exists e, a', w'; split; [exact Hrun|].
    split; [rewrite Hr; reflexivity|].
    split; [rewrite Hw; reflexivity|exact He].
Defined.

Lemma GetToken_cancelled_witness :
  Auth.GetToken AuthDouble.impatient AuthDouble.fresh [] =
  Auth.Ok ((EmptyString, Some (errorString "context canceled")), AuthDouble.fresh)
          [Auth.Clock; Auth.Cancelled (1 * Second)].
Proof.
  apply (@GetToken_cancelled AuthDouble.impatient AuthDouble.fresh
           (errorString "context canceled") []).
  - reflexivity.
  - vm_compute; reflexivity.
  - reflexivity.
Defined.

Lemma AddAuthHeader_bearer_witness :
  exists req',
    Auth.AddAuthHeader (AuthDouble.limited 0) AuthDouble.logged AuthDouble.probe [] =
      Auth.Ok ((None, req'), AuthDouble.logged) [Auth.Clock] /\
    Auth.HeaderGet "Authorization" (Auth.Headers req') = "Bearer T1"%string /\
    Auth.HeaderGet "Accept" (Auth.Headers req') = "application/json"%string.
Proof.
  destruct (@AddAuthHeader_bearer (AuthDouble.limited 0) AuthDouble.logged
              AuthDouble.logged AuthDouble.probe [] [Auth.Clock] "T1" None eq_refl)
    as (req' & Hrun & Ha & Ho & _).
  exists req'; split; [exact Hrun|]. split; [exact Ha|].
  rewrite Ho by discriminate. reflexivity.
Defined.

Lemma RoundTrip_forwards_witness :
  exists req',
    Auth.RoundTrip (AuthDouble.limited 0) Auth.nilTripper AuthDouble.logged
                   AuthDouble.probe [] =
      Auth.Ok ((Some (Auth.mkResponse 204 EmptyString), None), AuthDouble.logged)
              [Auth.Clock; Auth.Tripped Auth.nilTripper req'] /\
    Auth.HeaderGet "Authorization" (Auth.Headers req') = "Bearer T1"%string.
Proof.
  destruct (@RoundTrip_forwards (AuthDouble.limited 0) Auth.nilTripper
              AuthDouble.logged AuthDouble.logged AuthDouble.probe []
              [Auth.Clock] "T1" None eq_refl)
    as (req' & Hrun & Ha & _).
  exists req'; split; [exact Hrun|exact Ha].
Defined.

(** * Properties of the colour pattern *)

Section Colour.

Import Tag.

Lemma in_cuts (l l1 l2 : list ascii) :
  In (l1, l2) (cuts l) <-> l = l1 ++ l2.
Proof.
  unfold cuts; rewrite in_map_iff; split.
  - intros (i & Hi & _); inversion Hi; subst.
    symmetry; apply firstn_skipn.
  - intros ->. exists (length l1); split.
    + rewrite firstn_app, Nat.sub_diag, firstn_all; simpl.
      rewrite app_nil_r, skipn_app, Nat.sub_diag, skipn_all; reflexivity.
    + apply in_seq. rewrite length_app. lia.
Qed.

Lemma exists_cut (f : list ascii -> list ascii -> bool) (l : list ascii) :
  existsb (fun c => f (fst c) (snd c)) (cuts l) = true <->
  exists l1 l2, l = l1 ++ l2 /\ f l1 l2 = true.
Proof.
  rewrite existsb_exists; split.
  - intros ([l1 l2] & Hin & Hf); apply in_cuts in Hin; eauto.
  - intros (l1 & l2 & Hl & Hf); exists (l1, l2); split; [|exact Hf].
    apply in_cuts; exact Hl.
Qed.

Lemma matches_Cat (r1 r2 : regexp) (l : list ascii) :
  matches (Cat r1 r2) l = true <->
  exists l1 l2, l = l1 ++ l2 /\ matches r1 l1 = true /\ matches r2 l2 = true.
Proof.
  cbn [matches].
  rewrite (exists_cut (fun l1 l2 => matches r1 l1 && matches r2 l2)).
  split; intros (l1 & l2 & Hl & H); exists l1, l2; split; auto.
  - apply andb_true_iff; exact H.
  - apply andb_true_iff; exact H.
Qed.

(** [k] pieces of [n] characters that satisfy [P]: [k * n] such
    characters. *)
Lemma matchesTimes_blocks (m : list ascii -> bool) (P : ascii -> bool) (n : nat) :
  (forall c, m c = true <-> length c = n /\ forallb P c = true) ->
  forall (k : nat) (l : list ascii),
    matchesTimes m k l = true <-> length l = (k * n)%nat /\ forallb P l = true.
Proof.
  intros Hm; induction k as [|k IH]; intros l.
  - simpl. destruct l; simpl; split; intros H; auto.
    + discriminate.
    + destruct H; discriminate.
  - cbn [matchesTimes].
    rewrite (exists_cut (fun l1 l2 => m l1 && matchesTimes m k l2)).
    split.
    + intros (l1 & l2 & -> & H). apply andb_true_iff in H; destruct H as [H1 H2].
      apply Hm in H1; apply IH in H2. destruct H1 as [L1 F1], H2 as [L2 F2].
      rewrite length_app, forallb_app, F1, F2, L1, L2. split; [simpl; lia|reflexivity].
    + intros [L F]. exists (firstn n l), (skipn n l).
      split; [symmetry; apply firstn_skipn|].
      rewrite <- (firstn_skipn n l), forallb_app in F.
      apply andb_true_iff in F; destruct F as [F1 F2].
      apply andb_true_iff; split.
      * apply Hm; split; [|exact F1].
        rewrite length_firstn. simpl in L; lia.
      * apply IH; split; [|exact F2].
        rewrite length_skipn. simpl in L; lia.
Qed.

Lemma matches_Class (ranges : list (ascii * ascii)) (c : list ascii) :
  matches (Class ranges) c = true <->
  length c = 1%nat /\ forallb (inRanges ranges) c = true.
Proof.
  simpl. destruct c as [|b [|b' c]]; simpl; split; intros H;
    try discriminate; try (destruct H; discriminate).
  - rewrite H; auto.
  - destruct H as [_ H]; rewrite andb_true_r in H; exact H.
Qed.

Lemma inRanges_hex (a : ascii) : inRanges hexRanges a = isHexDigit a.
Proof.
  destruct a as [[] [] [] [] [] [] [] []]; reflexivity.
Qed.

Lemma forallb_hex (l : list ascii) :
  forallb (inRanges hexRanges) l = forallb isHexDigit l.
Proof.
  induction l as [|a l IH]; cbn [forallb]; [reflexivity|].
  rewrite inRanges_hex, IH; reflexivity.
Qed.

(** X26. The validator of the tag colour accepts a text exactly when it
    is a [#] followed by three or by six hexadecimal digits (of either
    case): nothing before the [#], nothing after the digits, no other
    number of digits. *)
Theorem validColor_iff (s : string) :
  validColor s = true <->
  exists h,
    s = String "#" h /\
    (String.length h = 3%nat \/ String.length h = 6%nat) /\
    forallb isHexDigit (list_ascii_of_string h) = true.
Proof.
  unfold validColor, colorPattern.
  rewrite matches_Cat.
  assert (Hthree : forall c,
    matches (Repeat 3 3 (Class hexRanges)) c = true <->
    length c = 3%nat /\ forallb (inRanges hexRanges) c = true).
  { intros c. cbn [matches seq Nat.sub existsb]. rewrite orb_false_r.
    rewrite (matchesTimes_blocks (matches (Class hexRanges)) (inRanges hexRanges)
               (matches_Class hexRanges) 3 c).
    reflexivity. }
  assert (Hgroup : forall l,
    matches (Repeat 1 2 (Repeat 3 3 (Class hexRanges))) l = true <->
    (length l = 3%nat \/ length l = 6%nat) /\
    forallb (inRanges hexRanges) l = true).
  { intros l.
    change (matches (Repeat 1 2 (Repeat 3 3 (Class hexRanges))) l)
      with (matchesTimes (matches (Repeat 3 3 (Class hexRanges))) 1 l
            || (matchesTimes (matches (Repeat 3 3 (Class hexRanges))) 2 l || false)).
    rewrite orb_false_r, orb_true_iff.
    rewrite !(matchesTimes_blocks (matches (Repeat 3 3 (Class hexRanges)))
                (inRanges hexRanges) Hthree).
    simpl Nat.mul. tauto. }
  split.
  - intros (l1 & l2 & Hl & H1 & H2).
    simpl in H1. destruct l1 as [|b [|b' l1]]; try discriminate.
    apply Ascii.eqb_eq in H1; subst b.
    apply Hgroup in H2; destruct H2 as [Hlen Hhex].
    exists (string_of_list_ascii l2).
    rewrite list_ascii_of_string_of_list_ascii.
    repeat split.
    + rewrite <- (string_of_list_ascii_of_string s), Hl. reflexivity.
    + rewrite <- (list_ascii_of_string_of_list_ascii l2) in Hlen.
      clear -Hlen. revert Hlen.
      generalize (string_of_list_ascii l2) as h.
      assert (Hlen : forall h, length (list_ascii_of_string h) = String.length h)
        by (induction h; simpl; auto).
      intros h; rewrite Hlen; auto.
    + rewrite <- forallb_hex; exact Hhex.
  - intros (h & -> & Hlen & Hhex).
    exists ["#"%char], (list_ascii_of_string h). split; [reflexivity|].
    split; [reflexivity|].
    apply Hgroup. split.
    + assert (Hl : forall h, length (list_ascii_of_string h) = String.length h)
        by (induction h0; simpl; auto).
      rewrite Hl; exact Hlen.
    + rewrite forallb_hex; exact Hhex.
Qed.

End Colour.

Lemma validColor_iff_witness :
  Tag.validColor "#FFF" = true /\ Tag.validColor "#FF0000" = true /\
  Tag.validColor "red" = false /\ Tag.validColor "#FFFF" = false /\
  (exists h, "#a1B2c3"%string = String "#" h /\
             (String.length h = 3%nat \/ String.length h = 6%nat) /\
             forallb Tag.isHexDigit (list_ascii_of_string h) = true).
Proof.
  repeat split; try reflexivity.
  apply (proj1 (validColor_iff "#a1B2c3")). reflexivity.
Defined.
